(** * whisper/transcript.py: the transcription handler, embedded and verified

    The handler of [src/whisper/transcript.py] is glue around three outside
    parties: the object store (boto3's S3 client), the local file system and
    the [whisper-cli] executable.  The embedding keeps the program's own
    code as it is written and gives each outside party a small explicit
    model:

    - Python values the code computes with ([str], [bytes], [int], JSON
      values, dictionaries) and the runtime functions it calls on them
      ([str.strip], [str.replace], [bytes.decode], [json.dumps],
      [os.path.join]) live in module [Py];
    - the process state the code reads and writes (object store, file
      system, [os.environ], local dictionaries, the log, the started child
      processes) is the record [world]; statements run in a state and
      exception monad over it;
    - the executable is a function from the started command and the file
      system to an exit status and two byte streams. *)

From Stdlib Require Import NArith ZArith List Strings.String Strings.Byte.
From Stdlib Require Import DecimalString Lia.
From stdpp Require Import gmap list.
From Equations Require Import Equations.
Import ListNotations.

(** ** The Python runtime the handler relies on *)

Module Py.

(** A [str] is a sequence of Unicode code points, a [bytes] object a
    sequence of bytes. *)
Definition str := list N.
Definition bytes := list byte.

(** The source's string literals are ASCII: a literal denotes the code
    points of its bytes. *)
Definition lit (s : string) : str := map Byte.to_N (list_byte_of_string s).
Arguments lit s%_string.

(** A line feed, written [\n] in the source's literals. *)
Definition LF : N := 10.

(** [str(n)] for an [int]: decimal digits, with a minus sign when negative. *)
Definition str_of_int (z : Z) : str :=
  lit (NilZero.string_of_int (Z.to_int z)).

(** *** [str.strip] and [str.replace] *)

(** [str.isspace] on one code point: the table of CPython's
    [_PyUnicode_IsWhitespace]. *)
Definition isspace (c : N) : bool :=
  ((0x09 <=? c) && (c <=? 0x0D) || (0x1C <=? c) && (c <=? 0x20)
   || (c =? 0x85) || (c =? 0xA0) || (c =? 0x1680)
   || (0x2000 <=? c) && (c <=? 0x200A)
   || (c =? 0x2028) || (c =? 0x2029) || (c =? 0x202F) || (c =? 0x205F)
   || (c =? 0x3000))%N.

Fixpoint lstrip (s : str) : str :=
  match s with
  | c :: s' => if isspace c then lstrip s' else s
  | [] => []
  end.

Definition rstrip (s : str) : str := reverse (lstrip (reverse s)).

(** [s.strip()] with no argument. *)
Definition strip (s : str) : str := rstrip (lstrip s).

(** [s.startswith(p)]. *)
Fixpoint startswith (p s : str) : bool :=
  match p, s with
  | [], _ => true
  | a :: p', b :: s' => (a =? b)%N && startswith p' s'
  | _ :: _, [] => false
  end.

(** The scan of [str.replace] for a pattern [o :: old'] that is not empty:
    at the leftmost occurrence the replacement is emitted and the scan goes
    on behind the occurrence, so occurrences are found left to right and do
    not overlap, and the text already emitted is not scanned again. *)
Equations? replace_scan (o : N) (old' new s : str) : str by wf (length s) lt :=
  replace_scan o old' new [] := [];
  replace_scan o old' new (c :: s') with startswith (o :: old') (c :: s') := {
    | true := new ++ replace_scan o old' new (drop (length old') s');
    | false := c :: replace_scan o old' new s' }.
Proof.
  all: simpl; rewrite ?length_drop; lia.
Qed.

(** [s.replace(old, new)].  An empty pattern matches before every character
    and at the end. *)
Definition replace (old new s : str) : str :=
  match old with
  | [] => new ++ flat_map (fun c => c :: new) s
  | o :: old' => replace_scan o old' new s
  end.

(** *** [bytes.decode('utf-8')] and [str.encode('utf-8')] *)

Definition in_range (lo hi n : N) : bool := ((lo <=? n) && (n <=? hi))%N.

(** The low six bits of a continuation byte. *)
Definition low6 (b : byte) : N := N.land (Byte.to_N b) 0x3F.

Definition is_cont (b : byte) : bool := in_range 0x80 0xBF (Byte.to_N b).

Definition cons_opt (c : N) (r : option str) : option str :=
  match r with
  | Some s => Some (c :: s)
  | None => None
  end.

(** The strict decoder: [None] stands for [UnicodeDecodeError].  Overlong
    forms, surrogates and values above U+10FFFF are refused through the
    range of the second byte. *)
Fixpoint utf8_decode (bs : bytes) : option str :=
  match bs with
  | [] => Some []
  | b0 :: r =>
    let n0 := Byte.to_N b0 in
    if (n0 <? 0x80)%N then cons_opt n0 (utf8_decode r)
    else if in_range 0xC2 0xDF n0 then
      match r with
      | b1 :: r1 =>
        if is_cont b1
        then cons_opt (N.shiftl (N.land n0 0x1F) 6 + low6 b1)%N (utf8_decode r1)
        else None
      | _ => None
      end
    else if in_range 0xE0 0xEF n0 then
      match r with
      | b1 :: b2 :: r2 =>
        let lo := if (n0 =? 0xE0)%N then 0xA0%N else 0x80%N in
        let hi := if (n0 =? 0xED)%N then 0x9F%N else 0xBF%N in
        if in_range lo hi (Byte.to_N b1) && is_cont b2
        then cons_opt (N.shiftl (N.land n0 0x0F) 12 + N.shiftl (low6 b1) 6
                       + low6 b2)%N (utf8_decode r2)
        else None
      | _ => None
      end
    else if in_range 0xF0 0xF4 n0 then
      match r with
      | b1 :: b2 :: b3 :: r3 =>
        let lo := if (n0 =? 0xF0)%N then 0x90%N else 0x80%N in
        let hi := if (n0 =? 0xF4)%N then 0x8F%N else 0xBF%N in
        if in_range lo hi (Byte.to_N b1) && is_cont b2 && is_cont b3
        then cons_opt (N.shiftl (N.land n0 0x07) 18 + N.shiftl (low6 b1) 12
                       + N.shiftl (low6 b2) 6 + low6 b3)%N (utf8_decode r3)
        else None
      | _ => None
      end
    else None
  end.

Definition byte_of_N (n : N) : byte :=
  match Byte.of_N n with
  | Some b => b
  | None => x00
  end.

(** A continuation byte carrying six bits of [n], taken [k] bits up. *)
Definition cont_byte (n k : N) : byte :=
  byte_of_N (0x80 + N.land (N.shiftr n k) 0x3F).

Definition utf8_encode_char (c : N) : bytes :=
  if (c <? 0x80)%N then [byte_of_N c]
  else if (c <? 0x800)%N then
    [byte_of_N (0xC0 + N.shiftr c 6); cont_byte c 0]
  else if (c <? 0x10000)%N then
    [byte_of_N (0xE0 + N.shiftr c 12); cont_byte c 6; cont_byte c 0]
  else
    [byte_of_N (0xF0 + N.shiftr c 18); cont_byte c 12; cont_byte c 6;
     cont_byte c 0].

(** [s.encode('utf-8')], as the store client applies it to a [str] body. *)
Definition utf8_encode (s : str) : bytes := flat_map utf8_encode_char s.

(** The bytes of an ASCII literal. *)
Definition blit (s : string) : bytes := list_byte_of_string s.
Arguments blit s%_string.

(** *** [os.path.join] (posixpath) *)

Definition SLASH : N := 47.

Definition endswith_slash (s : str) : bool :=
  match last s with
  | Some c => (c =? SLASH)%N
  | None => false
  end.

(** [os.path.join(a, *ps)]: a component that starts with a slash restarts
    the path; a separator is added unless the path so far is empty or ends
    with one. *)
Fixpoint os_path_join (a : str) (ps : list str) : str :=
  match ps with
  | [] => a
  | b :: ps' =>
    let path :=
      if startswith [SLASH] b then b
      else if (bool_decide (a = []) || endswith_slash a) then a ++ b
      else a ++ [SLASH] ++ b in
    os_path_join path ps'
  end.

(** *** [json.dumps] of a [str] *)

Definition BACKSLASH : N := 92.
Definition DQUOTE : N := 34.

Definition hex_digit (n : N) : N :=
  if (n <? 10)%N then (48 + n)%N else (87 + n)%N.

(** [format(n, '04x')] for [n] below 0x10000. *)
Definition hex4 (n : N) : str :=
  [hex_digit (n / 0x1000 mod 16); hex_digit (n / 0x100 mod 16);
   hex_digit (n / 0x10 mod 16); hex_digit (n mod 16)]%N.

Definition u_escape (n : N) : str := lit "\u" ++ hex4 n.

(** One character under [ensure_ascii=True]: the short escapes, printable
    ASCII as it is, [\uXXXX] for the rest, a surrogate pair above the basic
    plane. *)
Definition json_escape_char (c : N) : str :=
  if (c =? BACKSLASH)%N then [BACKSLASH; BACKSLASH]
  else if (c =? DQUOTE)%N then [BACKSLASH; DQUOTE]
  else if (c =? 0x08)%N then lit "\b"
  else if (c =? 0x0C)%N then lit "\f"
  else if (c =? 0x0A)%N then lit "\n"
  else if (c =? 0x0D)%N then lit "\r"
  else if (c =? 0x09)%N then lit "\t"
  else if in_range 0x20 0x7E c then [c]
  else if (c <? 0x10000)%N then u_escape c
  else
    let n := (c - 0x10000)%N in
    u_escape (N.lor 0xD800 (N.land (N.shiftr n 10) 0x3FF))
    ++ u_escape (N.lor 0xDC00 (N.land n 0x3FF)).

(** [json.dumps(s)] for a [str]. *)
Definition json_dumps_str (s : str) : str :=
  [DQUOTE] ++ flat_map json_escape_char s ++ [DQUOTE].

(** *** Values of an event payload and subscripting *)

(** What [json.loads] builds: the event the runtime hands to the handler.
    A float is kept as mantissa and exponent; nothing inspects it. *)
#[warnings="-register-all"] Inductive value :=
| VNone
| VBool (b : bool)
| VInt (z : Z)
| VFloat (m e : Z)
| VStr (s : str)
| VList (l : list value)
| VDict (d : gmap str value).

Inductive key :=
| KStr (s : str)
| KInt (i : Z).

Inductive exn :=
| FileNotFoundError (msg : str)
| Exception (msg : str)
| UnicodeDecodeError
| UnicodeEncodeError
| KeyError (k : key)
| IndexError
| TypeError
| ClientError (code : str)
| ParamValidationError.

Inductive result (A : Type) :=
| Ok (a : A)
| Raise (e : exn).
Arguments Ok {A} a.
Arguments Raise {A} e.

(** [l[i]] on a sequence: a negative index counts from the end. *)
Definition seq_index {A} (l : list A) (i : Z) : option A :=
  if (0 <=? i)%Z then l !! Z.to_nat i
  else if (0 <=? Z.of_nat (length l) + i)%Z
       then l !! Z.to_nat (Z.of_nat (length l) + i)
       else None.

(** [v[k]].  A dictionary raises [KeyError] for an absent key (its keys are
    strings, so an integer is always absent), a list or a string raises
    [IndexError] out of range and [TypeError] for a string subscript, and
    the other values are not subscriptable. *)
Definition getitem (v : value) (k : key) : result value :=
  match v, k with
  | VDict d, KStr s =>
    match d !! s with
    | Some x => Ok x
    | None => Raise (KeyError k)
    end
  | VDict _, KInt _ => Raise (KeyError k)
  | VList l, KInt i =>
    match seq_index l i with
    | Some x => Ok x
    | None => Raise IndexError
    end
  | VStr s, KInt i =>
    match seq_index s i with
    | Some c => Ok (VStr [c])
    | None => Raise IndexError
    end
  | _, _ => Raise TypeError
  end.

End Py.

Import Py.

(** ** The process state *)

(** A dictionary object is named by a reference: [os.environ] itself, or a
    dictionary allocated by the program.  Two names of one object see each
    other's writes; a copy is a new object. *)
Inductive dref :=
| Environ
| Local (i : nat).

(** The first argument of [subprocess.Popen]: one command string or an
    argument list. *)
Inductive popen_args :=
| ArgsStr (cmd : str)
| ArgsList (argv : list str).

(** One started child process: what [Popen] was given, the environment
    being the content of the [env] dictionary at the time of the call. *)
Record popen_call := {
  popen_args_of : popen_args;
  popen_shell : bool;
  popen_env : gmap str str }.

(** What the operating system executes for a call (POSIX): with
    [shell=True] the program is [/bin/sh], which receives the command
    string after [-c] and interprets it. *)
Definition exec_argv (c : popen_call) : list str :=
  match popen_shell c, popen_args_of c with
  | true, ArgsStr cmd => [lit "/bin/sh"; lit "-c"; cmd]
  | true, ArgsList l => lit "/bin/sh" :: lit "-c" :: l
  | false, ArgsStr cmd => [cmd]
  | false, ArgsList l => l
  end.

(** What [communicate] and [returncode] give once the child has exited. *)
Record completed := {
  returncode : Z;
  output : bytes;
  error : bytes }.

(** A [print] call of the handler, with the values it formats. *)
Inductive printed :=
| PrintDumps (event : value)
| PrintProcessing (object_key bucket_name : value).

(** The state: the object store (bucket, then key), the local files by the
    path the program names them with, the process environment, the
    dictionaries allocated so far, the printed lines and the child
    processes started, oldest first. *)
Record world := {
  s3_objects : gmap str (gmap str bytes);
  files : gmap str bytes;
  environ : gmap str str;
  dicts : list (gmap str str);
  stdout : list printed;
  started : list popen_call }.

(** ** Statements: state and exceptions *)

Definition M (A : Type) : Type := world -> result A * world.

Definition ret {A} (a : A) : M A := fun w => (Ok a, w).

Definition raise {A} (e : exn) : M A := fun w => (Raise e, w).

Definition bind {A B} (c : M A) (k : A -> M B) : M B :=
  fun w =>
    match c w with
    | (Ok a, w') => k a w'
    | (Raise e, w') => (Raise e, w')
    end.

Notation "x <- c ;; k" := (bind c (fun x => k))
  (at level 100, c at next level, right associativity).
Notation "c ;;; k" := (bind c (fun _ => k))
  (at level 100, right associativity).

(** An expression that may raise, used as a statement. *)
Definition lift {A} (r : result A) : M A := fun w => (r, w).

(** *** Primitive operations *)

Definition print (p : printed) : M unit :=
  fun w => (Ok tt,
            {| s3_objects := s3_objects w; files := files w;
               environ := environ w; dicts := dicts w;
               stdout := stdout w ++ [p]; started := started w |}).

Definition os_path_exists (path : str) : M bool :=
  fun w => (Ok (bool_decide (is_Some (files w !! path))), w).

(** The content of the dictionary behind a reference. *)
Definition deref (w : world) (r : dref) : gmap str str :=
  match r with
  | Environ => environ w
  | Local i => default ∅ (dicts w !! i)
  end.

(** [d.get(k, dflt)]. *)
Definition dict_get (r : dref) (k dflt : str) : M str :=
  fun w => (Ok (default dflt (deref w r !! k)), w).

(** [d.copy()]: a new dictionary with the same entries. *)
Definition dict_copy (r : dref) : M dref :=
  fun w => (Ok (Local (length (dicts w))),
            {| s3_objects := s3_objects w; files := files w;
               environ := environ w; dicts := dicts w ++ [deref w r];
               stdout := stdout w; started := started w |}).

(** [d[k] = v], on the object the reference names. *)
Definition dict_set (r : dref) (k v : str) : M unit :=
  fun w => (Ok tt,
            match r with
            | Environ =>
              {| s3_objects := s3_objects w; files := files w;
                 environ := <[k := v]> (environ w); dicts := dicts w;
                 stdout := stdout w; started := started w |}
            | Local i =>
              {| s3_objects := s3_objects w; files := files w;
                 environ := environ w;
                 dicts := alter (insert k v) i (dicts w);
                 stdout := stdout w; started := started w |}
            end).

(** How the client answers for an object that cannot be fetched: an empty
    key does not pass its parameter validation, and for any other key the
    [HeadObject] request comes back with status 404. *)
Definition download_refusal (key : str) : exn :=
  if bool_decide (key = []) then ParamValidationError
  else ClientError (lit "404").

(** [s3.download_file(Bucket, Key, Filename)] on string arguments: the
    object's bytes are written to the file, and nothing is written when
    the object cannot be fetched.  A store holds no object under the empty
    key, which the client refuses before any request, so the refusal is
    placed where the object is found absent.  The client's pattern for
    bucket names is not modelled: a name outside it is answered like the
    name of an absent bucket. *)
Definition s3_download_file (bucket key filename : str) : M unit :=
  fun w =>
    match s3_objects w !! bucket with
    | None => (Raise (download_refusal key), w)
    | Some objs =>
      match objs !! key with
      | None => (Raise (download_refusal key), w)
      | Some data =>
        (Ok tt,
         {| s3_objects := s3_objects w;
            files := <[filename := data]> (files w);
            environ := environ w; dicts := dicts w;
            stdout := stdout w; started := started w |})
      end
    end.

(** [s3.put_object(Bucket, Key, Body)] with a [str] body, which the client
    encodes as UTF-8: the object is created or overwritten. *)
Definition s3_put_object (bucket key : str) (body : str) : M unit :=
  fun w =>
    match s3_objects w !! bucket with
    | None => (Raise (ClientError (lit "NoSuchBucket")), w)
    | Some objs =>
      (Ok tt,
       {| s3_objects := <[bucket := <[key := utf8_encode body]> objs]>
                          (s3_objects w);
          files := files w; environ := environ w; dicts := dicts w;
          stdout := stdout w; started := started w |})
    end.

(** ** The program *)

Section Program.

(** The executable and the shell that starts it: from the call and the
    files present, the exit status and the two captured streams. *)
Variable engine : popen_call -> gmap str bytes -> completed.

(** [subprocess.Popen(args, shell=..., stdout=PIPE, stderr=PIPE, env=env)]
    followed by [communicate()]: the child is started with the present
    content of [env] and runs to its end.  The child is taken to answer
    through its exit status and its two streams only, as the transcription
    engine does; what else a command line handed to the shell could do to
    the files or the store is outside the model. *)
Definition Popen_communicate (args : popen_args) (shell : bool) (env : dref)
  : M completed :=
  fun w =>
    let call := {| popen_args_of := args; popen_shell := shell;
                   popen_env := deref w env |} in
    (Ok (engine call (files w)),
     {| s3_objects := s3_objects w; files := files w; environ := environ w;
        dicts := dicts w; stdout := stdout w;
        started := started w ++ [call] |}).

Definition BLANK_AUDIO : str := lit "[BLANK_AUDIO]".

Definition LD_LIBRARY_PATH : str := lit "LD_LIBRARY_PATH".

Definition LAMBDA_TASK_ROOT : str := lit "LAMBDA_TASK_ROOT".

(** The message of the missing-model error. *)
Definition model_not_found_msg (model model_name : str) : str :=
  lit "Model file not found: " ++ model ++ lit " " ++ [LF; LF]
  ++ lit "Download a model with this command:" ++ [LF; LF]
  ++ lit "> bash ./models/download-ggml-model.sh " ++ model_name
  ++ [LF; LF].

(** The message of the execution error. *)
Definition exit_code_msg (code : Z) (error_msg : str) : str :=
  lit "Error processing audio (exit code " ++ str_of_int code ++ lit "): "
  ++ error_msg.

(** [error.decode('utf-8') if error else 'Unknown error']. *)
Definition decode_error (err : bytes) : result str :=
  match err with
  | [] => Ok (lit "Unknown error")
  | _ :: _ =>
    match utf8_decode err with
    | Some s => Ok s
    | None => Raise UnicodeDecodeError
    end
  end.

(** [output.decode('utf-8')]. *)
Definition decode_output (out : bytes) : result str :=
  match utf8_decode out with
  | Some s => Ok s
  | None => Raise UnicodeDecodeError
  end.

Definition process_audio (wav_file model_name : str) : M str :=
  let model := lit "models/ggml-" ++ model_name ++ lit ".bin" in
  model_exists <- os_path_exists model ;;
  if negb model_exists
  then raise (FileNotFoundError (model_not_found_msg model model_name))
  else
  wav_exists <- os_path_exists wav_file ;;
  if negb wav_exists
  then raise (FileNotFoundError (lit "WAV file not found: " ++ wav_file))
  else
  root <- dict_get Environ LAMBDA_TASK_ROOT (lit ".") ;;
  let whisper_cli := os_path_join root [lit "bin"; lit "whisper-cli"] in
  env <- dict_copy Environ ;;
  root' <- dict_get Environ LAMBDA_TASK_ROOT (lit ".") ;;
  let bin_path := os_path_join root' [lit "bin"] in
  existing_ld_path <- dict_get env LD_LIBRARY_PATH [] ;;
  dict_set env LD_LIBRARY_PATH
    (match existing_ld_path with
     | _ :: _ => bin_path ++ lit ":" ++ existing_ld_path
     | [] => bin_path
     end) ;;;
  let full_command :=
    whisper_cli ++ lit " -m " ++ model ++ lit " -f " ++ wav_file
    ++ lit " -nt" in
  process <- Popen_communicate (ArgsStr full_command) true env ;;
  if negb (returncode process =? 0)%Z
  then
    error_msg <- lift (decode_error (error process)) ;;
    raise (Exception (exit_code_msg (returncode process) error_msg))
  else
  decoded <- lift (decode_output (output process)) ;;
  let decoded_str := strip decoded in
  let processed_str := strip (replace BLANK_AUDIO [] decoded_str) in
  ret processed_str.

(** The handler's answer. *)
Record response := {
  statusCode : Z;
  body : str }.

(** [event['Records'][0]['s3'][field][name]]. *)
Definition event_field (event : value) (field name : str) : result value :=
  match getitem event (KStr (lit "Records")) with
  | Raise e => Raise e
  | Ok records =>
    match getitem records (KInt 0) with
    | Raise e => Raise e
    | Ok record =>
      match getitem record (KStr (lit "s3")) with
      | Raise e => Raise e
      | Ok s3 =>
        match getitem s3 (KStr field) with
        | Raise e => Raise e
        | Ok entry => getitem entry (KStr name)
        end
      end
    end
  end.

(** The default of [process_audio]'s second parameter. *)
Definition default_model_name : str := lit "tiny".

(** Names that are not strings never reach the store: the transfer manager
    matches the bucket name against its patterns, which raises [TypeError]
    for a value that is not a string, and the client's parameter validation
    refuses a key that is not a string.  Nothing after the call runs. *)
Definition lambda_handler (event : value) : M response :=
  print (PrintDumps event) ;;;
  bucket_name <- lift (event_field event (lit "bucket") (lit "name")) ;;
  object_key <- lift (event_field event (lit "object") (lit "key")) ;;
  print (PrintProcessing object_key bucket_name) ;;;
  let audio_file := lit "/tmp/audio.wav" in
  match bucket_name, object_key with
  | VStr bucket, VStr key =>
    s3_download_file bucket key audio_file ;;;
    audio_exists <- os_path_exists audio_file ;;
    if negb audio_exists
    then raise (FileNotFoundError (lit "WAV file not found: " ++ audio_file))
    else
    result <- process_audio audio_file default_model_name ;;
    let result_key := lit "processed/" ++ key ++ lit ".json" in
    s3_put_object bucket result_key (json_dumps_str result) ;;;
    ret {| statusCode := 200;
           body := json_dumps_str (lit "Processing complete") |}
  | VStr _, _ => raise ParamValidationError
  | _, _ => raise TypeError
  end.

(** *** The command-line entry point *)

(** What [main] prints: a line of text, or [Error: ] followed by the text
    of the exception it has caught. *)
Inductive cli_line :=
| Line (s : str)
| ErrorLine (e : exn).

Definition usage : str :=
  lit "Usage: python whisper_processor.py <wav_file> [<model_name>]".

(** Standard output: for a line, the exception [print] raises on it
    ([UnicodeEncodeError] when the stream's encoding has no bytes for one
    of its characters), or [None] when the line is written. *)
Variable print_fails : cli_line -> option exn.

(** One [print] call of [main]: the exception it raises, if any, and the
    lines written. *)
Definition cli_print (l : cli_line) : result unit * list cli_line :=
  match print_fails l with
  | None => (Ok tt, [l])
  | Some e => (Raise e, [])
  end.

(** [main()], with [sys.argv] as its argument: how it ends, the lines it
    has printed and the state.  Both [process_audio] and the [print] of
    its result are inside the [try]; the [print] of the [except] branch is
    not, so an exception it raises leaves [main]. *)
Definition main (argv : list str) (w : world)
  : (result unit * list cli_line) * world :=
  if (2 <=? length argv)%nat then
    let wav_file := default [] (argv !! 1%nat) in
    let model_name :=
      if (length argv =? 3)%nat then default [] (argv !! 2%nat)
      else lit "tiny" in
    match process_audio wav_file model_name w with
    | (Ok result, w') =>
      match print_fails (Line result) with
      | None => ((Ok tt, [Line result]), w')
      | Some e => (cli_print (ErrorLine e), w')
      end
    | (Raise e, w') => (cli_print (ErrorLine e), w')
    end
  else (cli_print (Line usage), w).

End Program.

(** ** Notions the properties are stated with *)

(** [sub] occurs in [s] as a run of consecutive characters. *)
Definition occurs (sub s : str) : Prop :=
  exists pre post, s = pre ++ sub ++ post.

(** No whitespace at either end. *)
Definition trimmed (s : str) : Prop :=
  (forall c, head s = Some c -> isspace c = false) /\
  (forall c, last s = Some c -> isspace c = false).

Definition LBRACKET : N := 91.

(** Every opening bracket of [s] begins an occurrence of the token. *)
Definition brackets_begin_tokens (s : str) : Prop :=
  forall pre post, s = pre ++ LBRACKET :: post ->
    startswith BLANK_AUDIO (LBRACKET :: post) = true.

(** The same, as a test that can be run. *)
Fixpoint brackets_checked (s : str) : bool :=
  match s with
  | [] => true
  | c :: s' =>
    (negb (c =? LBRACKET)%N || startswith BLANK_AUDIO s) && brackets_checked s'
  end.

(** Text made of whitespace and tokens only. *)
Inductive blank_only : str -> Prop :=
| blank_nil : blank_only []
| blank_space c s : isspace c = true -> blank_only s -> blank_only (c :: s)
| blank_token s : blank_only s -> blank_only (BLANK_AUDIO ++ s).

(** [sep.join(words)]. *)
Fixpoint str_join (sep : str) (words : list str) : str :=
  match words with
  | [] => []
  | [x] => x
  | x :: rest => x ++ sep ++ str_join sep rest
  end.

(** Where the first record of an event keeps a field: the value at
    [record['s3'][field][name]] when every dictionary on the way has the
    key, [Missing] when one of them lacks it, [Malformed] when a value on
    the way is not a dictionary. *)
Inductive lookup_status :=
| Present (v : value)
| Missing
| Malformed.

Definition dict_entry (v : value) (k : str) : lookup_status :=
  match v with
  | VDict d =>
    match d !! k with
    | Some x => Present x
    | None => Missing
    end
  | _ => Malformed
  end.

Definition record_field (record : value) (field name : str) : lookup_status :=
  match dict_entry record (lit "s3") with
  | Present s3 =>
    match dict_entry s3 field with
    | Present entry => dict_entry entry name
    | st => st
    end
  | st => st
  end.

(** The record list of an event, when it has one. *)
Definition records_of (event : value) : option (list value) :=
  match event with
  | VDict d =>
    match d !! lit "Records" with
    | Some (VList l) => Some l
    | _ => None
    end
  | _ => None
  end.

(** [str(e)] for the exceptions the program raises itself, which carry
    the message they were built with. *)
Definition exn_text (e : exn) : option str :=
  match e with
  | FileNotFoundError msg => Some msg
  | Exception msg => Some msg
  | _ => None
  end.

(** The text of a printed line, where the exception's text is known. *)
Definition line_text (l : cli_line) : option str :=
  match l with
  | Line s => Some s
  | ErrorLine e =>
    match exn_text e with
    | Some msg => Some (lit "Error: " ++ msg)
    | None => None
    end
  end.

(** The state after the handler's first [print]. *)
Definition event_printed (w : world) (event : value) : world :=
  {| s3_objects := s3_objects w; files := files w; environ := environ w;
     dicts := dicts w; stdout := stdout w ++ [PrintDumps event];
     started := started w |}.

(** The state after both of the handler's [print]s. *)
Definition both_printed (w : world) (event : value) (bucket key : str)
  : world :=
  {| s3_objects := s3_objects w; files := files w; environ := environ w;
     dicts := dicts w;
     stdout := (stdout w ++ [PrintDumps event])
               ++ [PrintProcessing (VStr key) (VStr bucket)];
     started := started w |}.

(** The state after a successful [put_object]. *)
Definition published (w : world) (bucket key : str) (objs : gmap str bytes)
    (body : str) : world :=
  {| s3_objects := <[bucket := <[key := utf8_encode body]> objs]>
                     (s3_objects w);
     files := files w; environ := environ w; dicts := dicts w;
     stdout := stdout w; started := started w |}.

(** The handler's answer on success. *)
Definition complete : response :=
  {| statusCode := 200; body := json_dumps_str (lit "Processing complete") |}.

(** A character of the ASCII range. *)
Definition ascii (c : N) : Prop := (c < 128)%N.

(** The model file a model name stands for. *)
Definition model_path (model_name : str) : str :=
  lit "models/ggml-" ++ model_name ++ lit ".bin".

(** *** The run of [process_audio] in closed form *)

(** The root directory the executable is looked up under. *)
Definition task_root (w : world) : str :=
  default (lit ".") (environ w !! LAMBDA_TASK_ROOT).

Definition bin_path (w : world) : str := os_path_join (task_root w) [lit "bin"].

Definition whisper_cli (w : world) : str :=
  os_path_join (task_root w) [lit "bin"; lit "whisper-cli"].

(** The environment handed to the child. *)
Definition child_env (w : world) : gmap str str :=
  let existing := default [] (environ w !! LD_LIBRARY_PATH) in
  <[LD_LIBRARY_PATH :=
      match existing with
      | _ :: _ => bin_path w ++ lit ":" ++ existing
      | [] => bin_path w
      end]> (environ w).

Definition full_command (w : world) (wav_file model_name : str) : str :=
  whisper_cli w ++ lit " -m " ++ model_path model_name ++ lit " -f "
  ++ wav_file ++ lit " -nt".

(** The call [process_audio] makes in state [w]. *)
Definition child_call (w : world) (wav_file model_name : str) : popen_call :=
  {| popen_args_of := ArgsStr (full_command w wav_file model_name);
     popen_shell := true;
     popen_env := child_env w |}.

(** The state once the child has been started and has ended. *)
Definition after_launch (w : world) (call : popen_call) : world :=
  {| s3_objects := s3_objects w; files := files w; environ := environ w;
     dicts := dicts w ++ [popen_env call]; stdout := stdout w;
     started := started w ++ [call] |}.

(** How [process_audio] ends for a child that has ended with [p]. *)
Definition conclude (p : completed) : result str :=
  if negb (returncode p =? 0)%Z
  then
    match decode_error (error p) with
    | Ok error_msg => Raise (Exception (exit_code_msg (returncode p) error_msg))
    | Raise e => Raise e
    end
  else
    match decode_output (output p) with
    | Ok decoded => Ok (strip (replace BLANK_AUDIO [] (strip decoded)))
    | Raise e => Raise e
    end.

(** The state in which the handler calls [process_audio]: both lines
    printed and the object's bytes staged at the scratch path. *)
Definition staged (w : world) (event : value) (bucket key : str)
    (data : bytes) : world :=
  {| s3_objects := s3_objects w;
     files := <[lit "/tmp/audio.wav" := data]> (files w);
     environ := environ w;
     dicts := dicts w;
     stdout := (stdout w ++ [PrintDumps event])
               ++ [PrintProcessing (VStr key) (VStr bucket)];
     started := started w |}.

(** A record lacks a field when no value is found at it: a key is
    missing on the way, or a value on the way is not a dictionary. *)
Definition lacks_field (record : value) (field name : str) : Prop :=
  forall v, record_field record field name <> Present v.

(** The first record lacks the bucket name or the object key. *)
Definition lacks_bucket_or_key (record : value) : Prop :=
  lacks_field record (lit "bucket") (lit "name")
  \/ lacks_field record (lit "object") (lit "key").

(** Where the handler's two subscripts first find no value: at the bucket
    name, which is read first, or else at the object key. *)
Definition first_lack (record : value) : lookup_status :=
  match record_field record (lit "bucket") (lit "name") with
  | Present _ => record_field record (lit "object") (lit "key")
  | st => st
  end.

(** The exception the subscripts raise for a record list: [IndexError]
    when it is empty, and for a first record [KeyError] when a dictionary
    on the way to the first lacking field has no such key, [TypeError]
    when a value on the way is not a dictionary. *)
Definition lookup_failure (l : list value) (e : exn) : Prop :=
  match l with
  | [] => e = IndexError
  | record :: _ =>
    match first_lack record with
    | Missing => exists k, e = KeyError k
    | Malformed => e = TypeError
    | Present _ => False
    end
  end.

(** ** Sample states, used to run the program on concrete inputs *)

Definition sample_event (bucket key : str) : value :=
  VDict {[ lit "Records" :=
    VList [VDict {[ lit "s3" :=
      VDict {[ lit "bucket" := VDict {[ lit "name" := VStr bucket ]};
               lit "object" := VDict {[ lit "key" := VStr key ]} ]} ]}] ]}.

Definition sample_world : world :=
  {| s3_objects :=
       {[ lit "b" := {[ lit "audio/sample.wav" := blit "RIFF" ]} ]};
     files := {[ lit "models/ggml-tiny.bin" := blit "ggml";
                 lit "/tmp/my audio.wav" := blit "RIFF" ]};
     environ := {[ LD_LIBRARY_PATH := lit "/opt/lib";
                   lit "PATH" := lit "/usr/bin" ]};
     dicts := [];
     stdout := [];
     started := [] |}.

(** An event whose first record names a bucket and no object key. *)
Definition event_without_key (bucket : str) : value :=
  VDict {[ lit "Records" :=
    VList [VDict {[ lit "s3" :=
      VDict {[ lit "bucket" := VDict {[ lit "name" := VStr bucket ]} ]} ]}] ]}.

(** An event whose first record has a string where the bucket's
    dictionary is expected, and no object. *)
Definition event_with_string_bucket (bucket : str) : value :=
  VDict {[ lit "Records" :=
    VList [VDict {[ lit "s3" :=
      VDict {[ lit "bucket" := VStr bucket ]} ]}] ]}.

(** The sample state with other files and another environment. *)
Definition world_with (fs : gmap str bytes) (env : gmap str str) : world :=
  {| s3_objects := s3_objects sample_world;
     files := fs;
     environ := env;
     dicts := [];
     stdout := [];
     started := [] |}.

(** The sample state run under a task root, with no library path set. *)
Definition task_world : world :=
  world_with (files sample_world) {[ LAMBDA_TASK_ROOT := lit "/var/task" ]}.


Definition sample_wav : str := lit "/tmp/my audio.wav".

Definition sample_trigger : value :=
  sample_event (lit "b") (lit "audio/sample.wav").

(** A standard output encoded as UTF-8: it has bytes for every character
    but the surrogates.  The text of the runtime's own exceptions is ASCII,
    so a line made of it is written. *)
Definition is_surrogate (c : N) : bool := in_range 0xD800 0xDFFF c.

Definition utf8_stdout (l : cli_line) : option exn :=
  match line_text l with
  | Some s => if existsb is_surrogate s then Some UnicodeEncodeError else None
  | None => None
  end.

(** An executable that ends the same way whatever it is given. *)
Definition engine_const (c : completed)
  : popen_call -> gmap str bytes -> completed := fun _ _ => c.

Definition engine_says (out : bytes) :=
  engine_const {| returncode := 0; output := out; error := [] |}.

Definition engine_fails (code : Z) (err : bytes) :=
  engine_const {| returncode := code; output := []; error := err |}.

(** ** Properties of the runtime functions *)

Section StringFacts.

Implicit Types s p sub : str.

Lemma lstrip_head s c : head (lstrip s) = Some c -> isspace c = false.
Proof.
  induction s as [|a s IH]; simpl; [discriminate|].
  destruct (isspace a) eqn:Ha; [exact IH|].
  simpl. intros [= <-]. exact Ha.
Qed.

(** What [lstrip] removes is whitespace, and what is left is a suffix. *)
Lemma lstrip_split s :
  exists a, s = a ++ lstrip s /\ Forall (fun c => isspace c = true) a.
Proof.
  induction s as [|c s (a & Hs & Ha)]; simpl.
  - exists []. split; [reflexivity | constructor].
  - destruct (isspace c) eqn:Hc.
    + exists (c :: a). split; [simpl; congruence | by constructor].
    + exists []. split; [reflexivity | constructor].
Qed.

Lemma rstrip_split s :
  exists b, s = rstrip s ++ b /\ Forall (fun c => isspace c = true) b.
Proof.
  unfold rstrip.
  destruct (lstrip_split (reverse s)) as (a & Hs & Ha).
  exists (reverse a). split.
  - rewrite <- reverse_app, <- Hs. by rewrite reverse_involutive.
  - by apply Forall_reverse.
Qed.

Lemma rstrip_last s c : last (rstrip s) = Some c -> isspace c = false.
Proof.
  unfold rstrip. rewrite last_reverse. apply lstrip_head.
Qed.

Lemma strip_split s :
  exists a b, s = a ++ strip s ++ b
    /\ Forall (fun c => isspace c = true) a
    /\ Forall (fun c => isspace c = true) b.
Proof.
  destruct (lstrip_split s) as (a & Hs & Ha).
  destruct (rstrip_split (lstrip s)) as (b & Hl & Hb).
  exists a, b. unfold strip. by rewrite <- Hl.
Qed.

Lemma strip_trimmed s : trimmed (strip s).
Proof.
  split; intros c Hc.
  - unfold strip in Hc.
    destruct (rstrip_split (lstrip s)) as (b & Hl & _).
    apply (lstrip_head s). rewrite Hl.
    destruct (rstrip (lstrip s)); [discriminate | exact Hc].
  - by apply rstrip_last in Hc.
Qed.

(** Stripping text that is whitespace throughout leaves nothing. *)
Lemma lstrip_all_space s :
  Forall (fun c => isspace c = true) s -> lstrip s = [].
Proof.
  induction 1 as [|c s Hc _ IH]; simpl; [reflexivity|]. by rewrite Hc.
Qed.

Lemma strip_all_space s :
  Forall (fun c => isspace c = true) s -> strip s = [].
Proof.
  intros H. unfold strip. by rewrite (lstrip_all_space s H).
Qed.

Lemma strip_elem s c : c ∈ strip s -> c ∈ s.
Proof.
  intros Hc. destruct (strip_split s) as (a & b & Hs & _).
  rewrite Hs. set_solver.
Qed.

Lemma occurs_elem sub s c : occurs sub s -> c ∈ sub -> c ∈ s.
Proof.
  intros (pre & post & ->) Hc. set_solver.
Qed.

End StringFacts.

(** ** Properties of the replacement scan *)

Section ReplaceFacts.

Variables (o : N) (old' new : str).

(** The scan, one step unfolded. *)
Lemma replace_scan_cons c s :
  replace_scan o old' new (c :: s) =
  if startswith (o :: old') (c :: s)
  then new ++ replace_scan o old' new (drop (length old') s)
  else c :: replace_scan o old' new s.
Proof.
  simp replace_scan. destruct (startswith (o :: old') (c :: s)); reflexivity.
Qed.

Lemma startswith_length p s : startswith p s = true -> length p <= length s.
Proof.
  revert s. induction p as [|a p IH]; intros [|b s]; simpl;
    [lia | lia | discriminate |].
  intros [_ H]%andb_prop. apply IH in H. lia.
Qed.

Lemma startswith_self_app p s : startswith p (p ++ s) = true.
Proof.
  induction p as [|a p IH]; simpl; [reflexivity|].
  by rewrite N.eqb_refl.
Qed.

(** A pattern without whitespace cannot reach into trailing whitespace. *)
Lemma startswith_app_space p x b :
  p <> [] -> Forall (fun c => isspace c = false) p -> Forall (fun c => isspace c = true) b ->
  startswith p (x ++ b) = startswith p x.
Proof.
  intros Hne Hp Hb. revert x Hne.
  induction Hp as [|a p Ha Hp IH]; intros x Hne; [done|].
  destruct x as [|y x]; simpl.
  - destruct Hb as [|c b Hc _]; [reflexivity|].
    destruct (N.eqb_spec a c) as [->|]; [congruence | reflexivity].
  - destruct p as [|a' p]; [reflexivity|]. by rewrite IH.
Qed.

(** When every [o] of the text begins an occurrence of the pattern and the
    replacement has no [o], the scan leaves no [o] behind. *)
Lemma replace_scan_clears s :
  o ∉ new ->
  (forall pre post, s = pre ++ o :: post ->
     startswith (o :: old') (o :: post) = true) ->
  o ∉ replace_scan o old' new s.
Proof.
  intros Hnew. remember (length s) as n eqn:Hn. revert s Hn.
  induction n as [n IH] using lt_wf_ind. intros [|c s] Hn Hs.
  - simp replace_scan. set_solver.
  - rewrite replace_scan_cons.
    destruct (startswith (o :: old') (c :: s)) eqn:Hsw.
    + apply not_elem_of_app. split; [done|].
      apply (IH (length (drop (length old') s)));
        [rewrite length_drop; simpl in Hn; lia | done |].
      intros pre post Hd. apply (Hs (c :: take (length old') s ++ pre)).
      simpl. rewrite <- app_assoc, <- Hd. by rewrite take_drop.
    + assert (c <> o) as Hc.
      { intros ->. by rewrite (Hs [] s eq_refl) in Hsw. }
      apply not_elem_of_cons. split; [done|].
      apply (IH (length s)); [simpl in Hn; lia | done |].
      intros pre post ->. by apply (Hs (c :: pre)).
Qed.

Hypothesis o_not_space : isspace o = false.
Hypothesis old'_not_space : Forall (fun c => isspace c = false) old'.

Lemma replace_scan_space_prefix a s :
  Forall (fun c => isspace c = true) a ->
  replace_scan o old' new (a ++ s) = a ++ replace_scan o old' new s.
Proof.
  induction 1 as [|c a Hc _ IH]; [reflexivity|].
  simpl. rewrite replace_scan_cons. simpl.
  destruct (N.eqb_spec o c) as [->|]; [congruence|].
  simpl. by rewrite IH.
Qed.

Lemma replace_scan_space_suffix s b :
  Forall (fun c => isspace c = true) b ->
  replace_scan o old' new (s ++ b) = replace_scan o old' new s ++ b.
Proof.
  intros Hb. remember (length s) as n eqn:Hn. revert s Hn.
  induction n as [n IH] using lt_wf_ind. intros [|c s] Hn.
  - simpl. rewrite <- (app_nil_r b) at 1.
    rewrite (replace_scan_space_prefix b [] Hb).
    simp replace_scan. by rewrite app_nil_r.
  - change ((c :: s) ++ b) with (c :: (s ++ b)).
    rewrite !replace_scan_cons.
    change (c :: (s ++ b)) with ((c :: s) ++ b).
    rewrite (startswith_app_space (o :: old') (c :: s) b);
      [|done|by constructor|done].
    destruct (startswith (o :: old') (c :: s)) eqn:Hsw.
    + apply startswith_length in Hsw. simpl in Hsw, Hn.
      rewrite drop_app_le by lia.
      rewrite (IH (length (drop (length old') s))); [|rewrite length_drop; lia|done].
      by rewrite app_assoc.
    + simpl. f_equal. apply (IH (length s)); [simpl in Hn; lia | done].
Qed.

End ReplaceFacts.

(** ** The transcript clean-up *)

Section Transcript.

Implicit Types s : str.

Lemma token_shape :
  BLANK_AUDIO = LBRACKET :: lit "BLANK_AUDIO]"
  /\ isspace LBRACKET = false
  /\ Forall (fun c => isspace c = false) (lit "BLANK_AUDIO]").
Proof.
  split; [reflexivity|]. split; [reflexivity|].
  repeat constructor.
Qed.

Lemma clean_trimmed s : trimmed (strip (replace BLANK_AUDIO [] (strip s))).
Proof. apply strip_trimmed. Qed.

Lemma brackets_begin_tokens_strip s :
  brackets_begin_tokens s -> brackets_begin_tokens (strip s).
Proof.
  intros Hs pre post Hpre.
  destruct (strip_split s) as (a & b & Heq & _ & Hb).
  destruct token_shape as (Htok & Ho & Hold).
  rewrite <- (startswith_app_space BLANK_AUDIO (LBRACKET :: post) b);
    [|done|rewrite Htok; by constructor|done].
  apply (Hs (a ++ pre)).
  rewrite Heq, Hpre. by rewrite <- !app_assoc.
Qed.

Lemma brackets_checked_sound s :
  brackets_checked s = true -> brackets_begin_tokens s.
Proof.
  induction s as [|c s IH]; intros Hs pre post Hpre.
  - by destruct pre.
  - cbn [brackets_checked] in Hs. apply andb_prop in Hs as [Hc Hs].
    destruct pre as [|a pre]; simplify_eq/=.
    + exact Hc.
    + by apply (IH Hs pre).
Qed.

Lemma clean_no_token s :
  brackets_begin_tokens s ->
  ~ occurs BLANK_AUDIO (strip (replace BLANK_AUDIO [] (strip s))).
Proof.
  intros Hs Hocc.
  assert (LBRACKET ∈ strip (replace BLANK_AUDIO [] (strip s))) as Hin.
  { apply (occurs_elem BLANK_AUDIO); [done|]. apply list_elem_of_here. }
  apply strip_elem in Hin. revert Hin.
  apply (replace_scan_clears LBRACKET (lit "BLANK_AUDIO]") []);
    [apply not_elem_of_nil|].
  apply (brackets_begin_tokens_strip s Hs).
Qed.

Lemma replace_blank_only s :
  blank_only s ->
  Forall (fun c => isspace c = true) (replace BLANK_AUDIO [] s).
Proof.
  destruct token_shape as (Htok & Ho & Hold).
  induction 1 as [|c s Hc _ IH|s _ IH].
  - change (replace BLANK_AUDIO [] []) with
      (replace_scan LBRACKET (lit "BLANK_AUDIO]") [] []).
    simp replace_scan. constructor.
  - change (replace BLANK_AUDIO [] (c :: s)) with
      (replace_scan LBRACKET (lit "BLANK_AUDIO]") [] ([c] ++ s)).
    rewrite replace_scan_space_prefix; [|done|by repeat constructor].
    constructor; [done | exact IH].
  - change (replace BLANK_AUDIO [] (BLANK_AUDIO ++ s)) with
      (replace_scan LBRACKET (lit "BLANK_AUDIO]") []
         (LBRACKET :: lit "BLANK_AUDIO]" ++ s)).
    rewrite replace_scan_cons.
    change (LBRACKET :: lit "BLANK_AUDIO]" ++ s) with (BLANK_AUDIO ++ s).
    change (LBRACKET :: lit "BLANK_AUDIO]") with BLANK_AUDIO.
    rewrite startswith_self_app.
    rewrite drop_app_length. exact IH.
Qed.

Lemma clean_blank_only s :
  blank_only s -> strip (replace BLANK_AUDIO [] (strip s)) = [].
Proof.
  intros Hs. apply strip_all_space.
  destruct token_shape as (Htok & Ho & Hold).
  destruct (strip_split s) as (a & b & Heq & Ha & Hb).
  pose proof (replace_blank_only s Hs) as Hall.
  rewrite Heq in Hall.
  change (replace BLANK_AUDIO [] (a ++ strip s ++ b)) with
    (replace_scan LBRACKET (lit "BLANK_AUDIO]") [] (a ++ strip s ++ b)) in Hall.
  rewrite replace_scan_space_prefix in Hall by done.
  rewrite replace_scan_space_suffix in Hall by done.
  apply Forall_app in Hall as [_ Hall].
  by apply Forall_app in Hall as [Hall _].
Qed.

End Transcript.

(** ** The run of [process_audio] *)

Section Run.

Variable engine : popen_call -> gmap str bytes -> completed.

Lemma process_audio_run wav_file model_name w :
  process_audio engine wav_file model_name w =
  if negb (bool_decide (is_Some (files w !! model_path model_name)))
  then (Raise (FileNotFoundError
                 (model_not_found_msg (model_path model_name) model_name)), w)
  else if negb (bool_decide (is_Some (files w !! wav_file)))
  then (Raise (FileNotFoundError (lit "WAV file not found: " ++ wav_file)), w)
  else (conclude (engine (child_call w wav_file model_name) (files w)),
        after_launch w (child_call w wav_file model_name)).
Proof.
  unfold process_audio, bind, os_path_exists, model_path.
  destruct (bool_decide (is_Some (files w !! _))); [|reflexivity].
  cbn [negb].
  destruct (bool_decide (is_Some (files w !! wav_file))); [|reflexivity].
  cbn [negb].
  unfold dict_get, dict_copy, dict_set, Popen_communicate, lift, raise, ret.
  cbn [deref environ dicts files s3_objects stdout started].
  rewrite list_lookup_middle by reflexivity.
  rewrite (alter_app_r_alt _ _ _ (length (dicts w))) by lia.
  rewrite Nat.sub_diag. cbn [alter list_alter default].
  rewrite list_lookup_middle by reflexivity. cbn [default].
  unfold conclude, after_launch, child_call, full_command, child_env,
    whisper_cli, bin_path, task_root, model_path.
  cbn [popen_env id].
  destruct (engine _ (files w)) as [code out err]. cbn [returncode error output].
  destruct (negb (code =? 0)%Z).
  - by destruct (decode_error err).
  - by destruct (decode_output out).
Qed.

(** With both files present the child is started and [conclude] decides. *)
Lemma process_audio_ready wav_file model_name w :
  is_Some (files w !! model_path model_name) ->
  is_Some (files w !! wav_file) ->
  process_audio engine wav_file model_name w =
  (conclude (engine (child_call w wav_file model_name) (files w)),
   after_launch w (child_call w wav_file model_name)).
Proof.
  intros Hm Hw. rewrite process_audio_run.
  by rewrite !bool_decide_eq_true_2.
Qed.

(** Whatever the outcome, [process_audio] leaves the store, the files, the
    environment and the log as they were, and starts at most the one call. *)
Lemma process_audio_frame wav_file model_name w :
  let w' := snd (process_audio engine wav_file model_name w) in
  s3_objects w' = s3_objects w /\ files w' = files w
  /\ environ w' = environ w /\ stdout w' = stdout w
  /\ (started w' = started w
      \/ started w' = started w ++ [child_call w wav_file model_name]).
Proof.
  rewrite process_audio_run.
  destruct (negb (bool_decide (is_Some (files w !! model_path model_name))));
    [cbn; tauto|].
  destruct (negb (bool_decide (is_Some (files w !! wav_file))));
    cbn; tauto.
Qed.

(** C1 (as amended).  On a successful run (model and audio present, exit
    status 0, output that decodes as UTF-8 to [s]) [process_audio] returns
    the text [s] trimmed, with the occurrences of the token found by one
    left-to-right scan deleted, and trimmed again.  The result has no
    whitespace at either end.  It contains no occurrence of the token when
    every opening bracket of the output begins an occurrence of the token,
    however many there are; and when the output is made of tokens and
    whitespace only, the result is the empty string, returned normally. *)
Theorem process_audio_transcript wav_file model_name w s :
  is_Some (files w !! model_path model_name) ->
  is_Some (files w !! wav_file) ->
  returncode (engine (child_call w wav_file model_name) (files w)) = 0%Z ->
  utf8_decode (output (engine (child_call w wav_file model_name) (files w)))
    = Some s ->
  exists r,
    fst (process_audio engine wav_file model_name w) = Ok r
    /\ r = strip (replace BLANK_AUDIO [] (strip s))
    /\ trimmed r
    /\ (brackets_begin_tokens s -> ~ occurs BLANK_AUDIO r)
    /\ (blank_only s -> r = []).
Proof.
  intros Hm Hw Hcode Hout.
  rewrite (process_audio_ready _ _ _ Hm Hw). cbn [fst].
  unfold conclude, decode_output. rewrite Hcode, Hout. cbn [Z.eqb negb].
  eexists. split; [reflexivity|]. split; [reflexivity|].
  split; [apply clean_trimmed|].
  split; [apply clean_no_token | apply clean_blank_only].
Qed.

(** C3.  When no file exists at [models/ggml-<m>.bin], [process_audio]
    raises [FileNotFoundError], nothing else happens, and the message
    contains the download command for that model name. *)
Theorem missing_model_error wav_file model_name w :
  files w !! (lit "models/ggml-" ++ model_name ++ lit ".bin") = None ->
  exists msg,
    process_audio engine wav_file model_name w
      = (Raise (FileNotFoundError msg), w)
    /\ occurs (lit "bash ./models/download-ggml-model.sh " ++ model_name) msg.
Proof.
  intros Hm. rewrite process_audio_run.
  assert (files w !! model_path model_name = None) as -> by exact Hm.
  rewrite bool_decide_eq_false_2 by (intros [? [=]]). cbn [negb].
  eexists. split; [reflexivity|].
  exists (lit "Model file not found: " ++ lit "models/ggml-" ++ model_name
          ++ lit ".bin" ++ lit " " ++ [LF; LF]
          ++ lit "Download a model with this command:" ++ [LF; LF]
          ++ lit "> "), [LF; LF].
  unfold model_not_found_msg, model_path.
  change (lit "> bash ./models/download-ggml-model.sh ")
    with (lit "> " ++ lit "bash ./models/download-ggml-model.sh ").
  by rewrite <- !app_assoc.
Qed.

(** C4.  When the model file exists and the audio path does not,
    [process_audio] raises [FileNotFoundError] for the audio file and the
    state is untouched: no child process has been started. *)
Theorem missing_audio_error wav_file model_name w :
  is_Some (files w !! model_path model_name) ->
  files w !! wav_file = None ->
  process_audio engine wav_file model_name w
    = (Raise (FileNotFoundError (lit "WAV file not found: " ++ wav_file)), w)
  /\ started (snd (process_audio engine wav_file model_name w)) = started w.
Proof.
  intros Hm Hw. rewrite process_audio_run.
  rewrite bool_decide_eq_true_2 by done. rewrite Hw.
  rewrite bool_decide_eq_false_2 by (intros [? [=]]). by cbn.
Qed.


(** C6 (as amended).  With both files present the executable is started
    through the shell: [Popen] receives [shell=True] and one command string,
    the six words executable path, [-m], model path, [-f], audio path and
    [-nt] joined by single spaces with the paths put in as they are; what
    the system executes is [/bin/sh -c <command string>]. *)
Theorem child_started_through_shell wav_file model_name w :
  is_Some (files w !! model_path model_name) ->
  is_Some (files w !! wav_file) ->
  exists call cmd,
    started (snd (process_audio engine wav_file model_name w))
      = started w ++ [call]
    /\ cmd = str_join (lit " ")
               [os_path_join (default (lit ".") (environ w !! LAMBDA_TASK_ROOT))
                  [lit "bin"; lit "whisper-cli"];
                lit "-m"; lit "models/ggml-" ++ model_name ++ lit ".bin";
                lit "-f"; wav_file; lit "-nt"]
    /\ popen_args_of call = ArgsStr cmd
    /\ popen_shell call = true
    /\ exec_argv call = [lit "/bin/sh"; lit "-c"; cmd].
Proof.
  intros Hm Hw. rewrite (process_audio_ready _ _ _ Hm Hw).
  eexists _, _. split; [reflexivity|]. split; [reflexivity|].
  assert (popen_args_of (child_call w wav_file model_name) = ArgsStr
    (str_join (lit " ")
       [os_path_join (default (lit ".") (environ w !! LAMBDA_TASK_ROOT))
          [lit "bin"; lit "whisper-cli"];
        lit "-m"; lit "models/ggml-" ++ model_name ++ lit ".bin";
        lit "-f"; wav_file; lit "-nt"])) as Hargs.
  { cbn [child_call popen_args_of str_join].
    unfold full_command, whisper_cli, task_root, model_path.
    by rewrite <- ?app_assoc. }
  split; [exact Hargs|]. split; [reflexivity|].
  unfold exec_argv. by rewrite Hargs.
Qed.

(** C7.  With both files present and [LD_LIBRARY_PATH] holding [v] in the
    process environment, the environment handed to the child is the process
    environment with the one entry [LD_LIBRARY_PATH] set to the
    executable's [bin] directory, followed by a colon and [v] when [v] is
    not empty. *)
Theorem child_env_prepends_bin wav_file model_name w v :
  is_Some (files w !! model_path model_name) ->
  is_Some (files w !! wav_file) ->
  environ w !! LD_LIBRARY_PATH = Some v ->
  exists call,
    started (snd (process_audio engine wav_file model_name w))
      = started w ++ [call]
    /\ popen_env call =
       <[LD_LIBRARY_PATH :=
           match v with
           | [] => os_path_join
                     (default (lit ".") (environ w !! LAMBDA_TASK_ROOT))
                     [lit "bin"]
           | _ :: _ =>
             os_path_join (default (lit ".") (environ w !! LAMBDA_TASK_ROOT))
               [lit "bin"] ++ lit ":" ++ v
           end]> (environ w).
Proof.
  intros Hm Hw Hv. rewrite (process_audio_ready _ _ _ Hm Hw).
  eexists. split; [reflexivity|].
  cbn [child_call popen_env]. unfold child_env, bin_path, task_root.
  rewrite Hv. cbn [default]. by destruct v.
Qed.

(** C9.  With [LAMBDA_TASK_ROOT] unset and both files present, the command
    starts with [./bin/whisper-cli], the child's [LD_LIBRARY_PATH] starts
    with [./bin], and the run is not cut short: the call is made and the
    outcome is the one the child's ending decides. *)
Theorem unset_task_root wav_file model_name w :
  environ w !! LAMBDA_TASK_ROOT = None ->
  is_Some (files w !! model_path model_name) ->
  is_Some (files w !! wav_file) ->
  exists call,
    started (snd (process_audio engine wav_file model_name w))
      = started w ++ [call]
    /\ popen_args_of call =
       ArgsStr (lit "./bin/whisper-cli" ++ lit " -m " ++ lit "models/ggml-"
                ++ model_name ++ lit ".bin" ++ lit " -f " ++ wav_file
                ++ lit " -nt")
    /\ popen_env call !! LD_LIBRARY_PATH =
       Some (match environ w !! LD_LIBRARY_PATH with
             | Some (c :: v) => lit "./bin" ++ lit ":" ++ c :: v
             | _ => lit "./bin"
             end)
    /\ fst (process_audio engine wav_file model_name w)
       = conclude (engine call (files w)).
Proof.
  intros Hroot Hm Hw. rewrite (process_audio_ready _ _ _ Hm Hw).
  eexists. split; [reflexivity|]. cbn [fst child_call popen_args_of popen_env].
  split; [|split; [|reflexivity]].
  - unfold full_command, whisper_cli, task_root, model_path. rewrite Hroot.
    by rewrite <- ?app_assoc.
  - unfold child_env, bin_path, task_root. rewrite Hroot, lookup_insert_eq.
    by destruct (environ w !! LD_LIBRARY_PATH) as [[|c v]|].
Qed.

(** C10.  However [process_audio] ends, the process environment is what it
    was before the call, and a child it has started was given an
    environment that agrees with the process environment on every variable
    other than [LD_LIBRARY_PATH]. *)
Theorem parent_environment_untouched wav_file model_name w :
  environ (snd (process_audio engine wav_file model_name w)) = environ w
  /\ forall call,
       call ∈ started (snd (process_audio engine wav_file model_name w)) ->
       call ∈ started w
       \/ forall k, k <> LD_LIBRARY_PATH ->
            popen_env call !! k = environ w !! k.
Proof.
  destruct (process_audio_frame wav_file model_name w)
    as (_ & _ & Henv & _ & Hst).
  split; [exact Henv|]. intros call Hcall.
  destruct Hst as [Hst|Hst]; rewrite Hst in Hcall; [by left|].
  apply elem_of_app in Hcall as [Hcall|Hcall]; [by left|].
  apply list_elem_of_singleton in Hcall as ->. right. intros k Hk.
  cbn [child_call popen_env]. unfold child_env. by rewrite lookup_insert_ne.
Qed.

End Run.

(** ** The handler *)

Section Handler.

Variable engine : popen_call -> gmap str bytes -> completed.

Lemma event_field_empty event field name :
  records_of event = Some [] ->
  event_field event field name = Raise IndexError.
Proof.
  destruct event as [| | | | | |d]; try discriminate. cbn [records_of].
  destruct (d !! lit "Records") as [[| | | | |l|]|] eqn:Hd; try discriminate.
  intros [= ->]. unfold event_field. cbn [getitem]. by rewrite Hd.
Qed.

(** With a first record, the subscript chain follows [record_field]. *)
Lemma event_field_record event record rest field name :
  records_of event = Some (record :: rest) ->
  match record_field record field name with
  | Present v => event_field event field name = Ok v
  | Missing => exists k, event_field event field name = Raise (KeyError k)
  | Malformed => event_field event field name = Raise TypeError
  end.
Proof.
  destruct event as [| | | | | |d]; try discriminate. cbn [records_of].
  destruct (d !! lit "Records") as [[| | | | |l|]|] eqn:Hd; try discriminate.
  intros [= ->]. unfold event_field, record_field, dict_entry.
  cbn [getitem]. rewrite Hd. cbn [getitem].
  change (seq_index (record :: rest) 0) with (Some record).
  destruct record as [| | | | | |dr]; try reflexivity.
  cbn [getitem]. destruct (dr !! lit "s3") as [s3|]; [|by eexists].
  destruct s3 as [| | | | | |d3]; try reflexivity.
  cbn [getitem]. destruct (d3 !! field) as [entry|]; [|by eexists].
  destruct entry as [| | | | | |de]; try reflexivity.
  cbn [getitem]. destruct (de !! name); [reflexivity | by eexists].
Qed.

(** A subscript that raises ends the handler there, with the event
    printed and nothing else done: no name is put in place of a missing
    one. *)
Lemma lambda_handler_lookup_raises event w e :
  event_field event (lit "bucket") (lit "name") = Raise e
  \/ ((exists v, event_field event (lit "bucket") (lit "name") = Ok v)
      /\ event_field event (lit "object") (lit "key") = Raise e) ->
  lambda_handler engine event w =
  (Raise e,
   {| s3_objects := s3_objects w; files := files w; environ := environ w;
      dicts := dicts w; stdout := stdout w ++ [PrintDumps event];
      started := started w |}).
Proof.
  unfold lambda_handler, bind, print, lift.
  intros [->|[[v ->] ->]]; reflexivity.
Qed.

(** C8 (as amended).  For an event whose record list is empty, or whose
    first record lacks the bucket name or the object key, the handler fails
    with the exception of the subscript that finds no value: [IndexError]
    for the empty list, [KeyError] when a dictionary on the way to the
    first lacking field has no such key, [TypeError] when a value on the
    way to it is not a dictionary.  It has then printed the event and done
    nothing else: no object was fetched or stored under any name, no file
    written, no process started. *)
Theorem lambda_handler_unguarded event w l :
  records_of event = Some l ->
  l = [] \/ (exists record rest, l = record :: rest
                                 /\ lacks_bucket_or_key record) ->
  exists e w',
    lambda_handler engine event w = (Raise e, w')
    /\ lookup_failure l e
    /\ (e = IndexError \/ (exists k, e = KeyError k) \/ e = TypeError)
    /\ s3_objects w' = s3_objects w
    /\ files w' = files w
    /\ started w' = started w
    /\ stdout w' = stdout w ++ [PrintDumps event].
Proof.
  intros Hl Hcase.
  assert (exists e,
    lookup_failure l e
    /\ (e = IndexError \/ (exists k, e = KeyError k) \/ e = TypeError)
    /\ (event_field event (lit "bucket") (lit "name") = Raise e
        \/ ((exists v, event_field event (lit "bucket") (lit "name") = Ok v)
            /\ event_field event (lit "object") (lit "key") = Raise e)))
    as (e & Hfail & Hkind & Hraise).
  { destruct Hcase as [->|(record & rest & -> & Hlack)].
    - exists IndexError. split; [reflexivity|]. split; [by left|]. left.
      by apply event_field_empty.
    - pose proof (event_field_record _ _ _ (lit "bucket") (lit "name") Hl)
        as Hb.
      pose proof (event_field_record _ _ _ (lit "object") (lit "key") Hl)
        as Hk.
      cbn [lookup_failure]. unfold first_lack.
      destruct (record_field record (lit "bucket") (lit "name"))
        as [vb| |] eqn:Hsb.
      + destruct (record_field record (lit "object") (lit "key"))
          as [vk| |] eqn:Hsk.
        * destruct Hlack as [Hlack|Hlack]; [by destruct (Hlack vb)|].
          by destruct (Hlack vk).
        * destruct Hk as [k Hk]. exists (KeyError k).
          split; [by eexists|]. split; [right; left; by eexists|].
          right. eauto.
        * exists TypeError. split; [reflexivity|]. split; [by right; right|].
          right. eauto.
      + destruct Hb as [k Hb]. exists (KeyError k).
        split; [by eexists|]. split; [right; left; by eexists | by left].
      + exists TypeError. split; [reflexivity|].
        split; [by right; right | by left]. }
  eexists e, _. split; [by apply lambda_handler_lookup_raises|].
  split; [exact Hfail|]. split; [exact Hkind|]. by cbn.
Qed.

(** C2.  For an event naming bucket [b] and key [k], when the handler
    returns, the answer has status 200 and the store differs from the one
    before in one object: in bucket [b], under the key
    [processed/<k>.json], it holds the JSON text of the string that
    [process_audio] returned for the staged file, encoded as UTF-8. *)
Theorem lambda_handler_publishes event w b k resp w' :
  event_field event (lit "bucket") (lit "name") = Ok (VStr b) ->
  event_field event (lit "object") (lit "key") = Ok (VStr k) ->
  lambda_handler engine event w = (Ok resp, w') ->
  statusCode resp = 200%Z
  /\ exists objs data transcript w2,
       s3_objects w !! b = Some objs
       /\ objs !! k = Some data
       /\ process_audio engine (lit "/tmp/audio.wav") (lit "tiny")
            (staged w event b k data) = (Ok transcript, w2)
       /\ s3_objects w' =
          <[b := <[lit "processed/" ++ k ++ lit ".json" :=
                     utf8_encode (json_dumps_str transcript)]> objs]>
            (s3_objects w).
Proof.
  intros Hb Hk. unfold lambda_handler, bind, print, lift.
  rewrite Hb, Hk. unfold s3_download_file.
  cbn [s3_objects files environ dicts stdout started].
  destruct (s3_objects w !! b) as [objs|] eqn:Hobjs; [|discriminate].
  destruct (objs !! k) as [data|] eqn:Hdata; [|discriminate].
  unfold os_path_exists. cbn [s3_objects files environ dicts stdout started].
  rewrite lookup_insert_eq.
  rewrite bool_decide_eq_true_2 by by eexists. cbn [negb].
  fold (staged w event b k data). unfold default_model_name.
  pose proof (process_audio_frame engine (lit "/tmp/audio.wav") (lit "tiny")
                (staged w event b k data)) as (Hs3 & _).
  destruct (process_audio engine (lit "/tmp/audio.wav") (lit "tiny")
              (staged w event b k data)) as [[transcript|e] w2] eqn:Hrun;
    [|discriminate].
  cbn [snd] in Hs3. unfold s3_put_object, ret.
  rewrite Hs3. cbn [staged s3_objects]. rewrite Hobjs.
  intros [= <- <-]. split; [reflexivity|].
  by exists objs, data, transcript, w2.
Qed.

End Handler.

(** ** The theorems at concrete inputs *)

(** A run on output with text and two tokens. *)
Lemma process_audio_transcript_witness :
  exists r,
    fst (process_audio
           (engine_says (blit " hello [BLANK_AUDIO] world [BLANK_AUDIO] "))
           (lit "/tmp/my audio.wav") (lit "tiny") sample_world) = Ok r
    /\ r = strip (replace BLANK_AUDIO []
                    (strip (lit " hello [BLANK_AUDIO] world [BLANK_AUDIO] ")))
    /\ trimmed r
    /\ (brackets_begin_tokens (lit " hello [BLANK_AUDIO] world [BLANK_AUDIO] ")
        -> ~ occurs BLANK_AUDIO r)
    /\ (blank_only (lit " hello [BLANK_AUDIO] world [BLANK_AUDIO] ")
        -> r = []).
Proof.
  apply (process_audio_transcript
           (engine_says (blit " hello [BLANK_AUDIO] world [BLANK_AUDIO] "))
           (lit "/tmp/my audio.wav") (lit "tiny") sample_world
           (lit " hello [BLANK_AUDIO] world [BLANK_AUDIO] ")).
  - eexists. reflexivity.
  - eexists. reflexivity.
  - reflexivity.
  - reflexivity.
Defined.

(** C1, counterexample.  The child exits with status 0 and prints a token
    wrapped in the two halves of another; the run succeeds and the result
    is the token, which the single scan has put together. *)
Lemma transcript_keeps_joined_token :
  is_Some (files sample_world !! model_path (lit "tiny"))
  /\ is_Some (files sample_world !! lit "/tmp/my audio.wav")
  /\ returncode (engine_says (blit "[BLANK_[BLANK_AUDIO]AUDIO]")
                   (child_call sample_world (lit "/tmp/my audio.wav")
                      (lit "tiny")) (files sample_world)) = 0%Z
  /\ utf8_decode (blit "[BLANK_[BLANK_AUDIO]AUDIO]")
     = Some (lit "[BLANK_[BLANK_AUDIO]AUDIO]")
  /\ fst (process_audio (engine_says (blit "[BLANK_[BLANK_AUDIO]AUDIO]"))
            (lit "/tmp/my audio.wav") (lit "tiny") sample_world)
     = Ok (lit "[BLANK_AUDIO]")
  /\ occurs (lit "[BLANK_AUDIO]") (lit "[BLANK_AUDIO]").
Proof.
  split; [eexists; reflexivity|]. split; [eexists; reflexivity|].
  split; [reflexivity|]. split; [reflexivity|]. split; [reflexivity|].
  exists [], []. reflexivity.
Qed.

Lemma lambda_handler_publishes_witness :
  statusCode {| statusCode := 200;
                body := json_dumps_str (lit "Processing complete") |} = 200%Z
  /\ exists objs data transcript w2,
       s3_objects sample_world !! lit "b" = Some objs
       /\ objs !! lit "audio/sample.wav" = Some data
       /\ process_audio (engine_says (blit " hello [BLANK_AUDIO] "))
            (lit "/tmp/audio.wav") (lit "tiny")
            (staged sample_world
               (sample_event (lit "b") (lit "audio/sample.wav"))
               (lit "b") (lit "audio/sample.wav") data)
          = (Ok transcript, w2)
       /\ s3_objects
            (snd (lambda_handler (engine_says (blit " hello [BLANK_AUDIO] "))
                    (sample_event (lit "b") (lit "audio/sample.wav"))
                    sample_world)) =
          <[lit "b" := <[lit "processed/" ++ lit "audio/sample.wav"
                         ++ lit ".json" :=
                           utf8_encode (json_dumps_str transcript)]> objs]>
            (s3_objects sample_world).
Proof.
  apply (lambda_handler_publishes (engine_says (blit " hello [BLANK_AUDIO] "))
           (sample_event (lit "b") (lit "audio/sample.wav")) sample_world
           (lit "b") (lit "audio/sample.wav")).
  - reflexivity.
  - reflexivity.
  - vm_compute. reflexivity.
Defined.

(** The published body of the sample run is the JSON text ["hello"]. *)
Example sample_run_body :
  s3_objects
    (snd (lambda_handler (engine_says (blit " hello [BLANK_AUDIO] "))
            (sample_event (lit "b") (lit "audio/sample.wav")) sample_world))
    !! lit "b" ≫= (.!! lit "processed/audio/sample.wav.json")
  = Some [x22; x68; x65; x6c; x6c; x6f; x22].
Proof. vm_compute. reflexivity. Qed.

Lemma missing_model_error_witness :
  exists msg,
    process_audio (engine_says []) (lit "/tmp/my audio.wav") (lit "base")
      sample_world = (Raise (FileNotFoundError msg), sample_world)
    /\ occurs (lit "bash ./models/download-ggml-model.sh " ++ lit "base") msg.
Proof.
  apply (missing_model_error (engine_says []) (lit "/tmp/my audio.wav")
           (lit "base") sample_world).
  reflexivity.
Defined.

Lemma missing_audio_error_witness :
  process_audio (engine_says []) (lit "missing.wav") (lit "tiny") sample_world
    = (Raise (FileNotFoundError (lit "WAV file not found: "
                                 ++ lit "missing.wav")), sample_world)
  /\ started (snd (process_audio (engine_says []) (lit "missing.wav")
                     (lit "tiny") sample_world)) = started sample_world.
Proof.
  apply (missing_audio_error (engine_says []) (lit "missing.wav") (lit "tiny")
           sample_world).
  - eexists. reflexivity.
  - reflexivity.
Defined.



Lemma child_started_through_shell_witness :
  exists call cmd,
    started (snd (process_audio (engine_says []) (lit "/tmp/my audio.wav")
                    (lit "tiny") sample_world))
      = started sample_world ++ [call]
    /\ cmd = str_join (lit " ")
               [os_path_join
                  (default (lit ".") (environ sample_world !! LAMBDA_TASK_ROOT))
                  [lit "bin"; lit "whisper-cli"];
                lit "-m"; lit "models/ggml-" ++ lit "tiny" ++ lit ".bin";
                lit "-f"; lit "/tmp/my audio.wav"; lit "-nt"]
    /\ popen_args_of call = ArgsStr cmd
    /\ popen_shell call = true
    /\ exec_argv call = [lit "/bin/sh"; lit "-c"; cmd].
Proof.
  apply (child_started_through_shell (engine_says [])
           (lit "/tmp/my audio.wav") (lit "tiny") sample_world).
  - eexists. reflexivity.
  - eexists. reflexivity.
Defined.

(** C6, counterexample.  For an audio path with a space in it the program
    the system executes is the shell, with the whole command line as one
    argument for it to interpret: the executable is not given the six
    arguments, and the path is not kept apart from the rest of the text. *)
Lemma spaced_path_is_left_to_the_shell :
  is_Some (files sample_world !! model_path (lit "tiny"))
  /\ is_Some (files sample_world !! lit "/tmp/my audio.wav")
  /\ exists call,
       started (snd (process_audio (engine_says []) (lit "/tmp/my audio.wav")
                       (lit "tiny") sample_world)) = [call]
       /\ popen_shell call = true
       /\ exec_argv call =
          [lit "/bin/sh"; lit "-c";
           lit "./bin/whisper-cli -m models/ggml-tiny.bin -f /tmp/my audio.wav -nt"]
       /\ exec_argv call <>
          [lit "./bin/whisper-cli"; lit "-m"; lit "models/ggml-tiny.bin";
           lit "-f"; lit "/tmp/my audio.wav"; lit "-nt"].
Proof.
  split; [eexists; reflexivity|]. split; [eexists; reflexivity|].
  eexists. split; [reflexivity|]. split; [reflexivity|].
  split; [reflexivity | discriminate].
Qed.

Lemma child_env_prepends_bin_witness :
  exists call,
    started (snd (process_audio (engine_says []) (lit "/tmp/my audio.wav")
                    (lit "tiny") sample_world))
      = started sample_world ++ [call]
    /\ popen_env call =
       <[LD_LIBRARY_PATH :=
           match lit "/opt/lib" with
           | [] => os_path_join
                     (default (lit ".")
                        (environ sample_world !! LAMBDA_TASK_ROOT))
                     [lit "bin"]
           | _ :: _ =>
             os_path_join
               (default (lit ".") (environ sample_world !! LAMBDA_TASK_ROOT))
               [lit "bin"] ++ lit ":" ++ lit "/opt/lib"
           end]> (environ sample_world).
Proof.
  apply (child_env_prepends_bin (engine_says []) (lit "/tmp/my audio.wav")
           (lit "tiny") sample_world (lit "/opt/lib")).
  - eexists. reflexivity.
  - eexists. reflexivity.
  - reflexivity.
Defined.

(** The child of the sample run searches [./bin] first, then what the
    process environment had. *)
Example sample_run_library_path :
  (fun call => popen_env call !! LD_LIBRARY_PATH)
    <$> started (snd (process_audio (engine_says []) (lit "/tmp/my audio.wav")
                        (lit "tiny") sample_world))
  = [Some (lit "./bin:/opt/lib")].
Proof. vm_compute. reflexivity. Qed.

Lemma unset_task_root_witness :
  exists call,
    started (snd (process_audio (engine_says []) (lit "/tmp/my audio.wav")
                    (lit "tiny") sample_world))
      = started sample_world ++ [call]
    /\ popen_args_of call =
       ArgsStr (lit "./bin/whisper-cli" ++ lit " -m " ++ lit "models/ggml-"
                ++ lit "tiny" ++ lit ".bin" ++ lit " -f "
                ++ lit "/tmp/my audio.wav" ++ lit " -nt")
    /\ popen_env call !! LD_LIBRARY_PATH =
       Some (match environ sample_world !! LD_LIBRARY_PATH with
             | Some (c :: v) => lit "./bin" ++ lit ":" ++ c :: v
             | _ => lit "./bin"
             end)
    /\ fst (process_audio (engine_says []) (lit "/tmp/my audio.wav")
              (lit "tiny") sample_world)
       = conclude (engine_says [] call (files sample_world)).
Proof.
  apply (unset_task_root (engine_says []) (lit "/tmp/my audio.wav")
           (lit "tiny") sample_world).
  - reflexivity.
  - eexists. reflexivity.
  - eexists. reflexivity.
Defined.

Lemma lambda_handler_unguarded_witness :
  exists e w',
    lambda_handler (engine_says []) (event_without_key (lit "b")) sample_world
      = (Raise e, w')
    /\ lookup_failure
         [VDict {[ lit "s3" :=
            VDict {[ lit "bucket" :=
              VDict {[ lit "name" := VStr (lit "b") ]} ]} ]}] e
    /\ (e = IndexError \/ (exists k, e = KeyError k) \/ e = TypeError)
    /\ s3_objects w' = s3_objects sample_world
    /\ files w' = files sample_world
    /\ started w' = started sample_world
    /\ stdout w' = stdout sample_world
                   ++ [PrintDumps (event_without_key (lit "b"))].
Proof.
  apply (lambda_handler_unguarded (engine_says [])
           (event_without_key (lit "b")) sample_world
           [VDict {[ lit "s3" :=
              VDict {[ lit "bucket" :=
                VDict {[ lit "name" := VStr (lit "b") ]} ]} ]}]).
  - reflexivity.
  - right. eexists _, _. split; [reflexivity|]. right.
    intros v. vm_compute. discriminate.
Defined.

(** C8, counterexample.  The first record is [{"s3": {"bucket": "x"}}]: it
    has no object key, and no bucket name either, the bucket being a string
    and not a dictionary.  The subscript of that string by ['name'] raises
    [TypeError], which is neither a key error nor an index error. *)
Lemma string_bucket_raises_type_error :
  records_of (event_with_string_bucket (lit "x"))
    = Some [VDict {[ lit "s3" :=
              VDict {[ lit "bucket" := VStr (lit "x") ]} ]}]
  /\ record_field
       (VDict {[ lit "s3" := VDict {[ lit "bucket" := VStr (lit "x") ]} ]})
       (lit "object") (lit "key") = Missing
  /\ fst (lambda_handler (engine_says []) (event_with_string_bucket (lit "x"))
            sample_world) = Raise TypeError
  /\ ~ (TypeError = IndexError \/ exists k, TypeError = KeyError k).
Proof.
  split; [reflexivity|]. split; [reflexivity|]. split; [reflexivity|].
  intros [H|[k H]]; discriminate.
Qed.

(** The handler on an event without records, and on one without a key. *)
Example no_records_index_error :
  fst (lambda_handler (engine_says []) (VDict {[ lit "Records" := VList [] ]})
         sample_world) = Raise IndexError.
Proof. reflexivity. Qed.

Example no_key_key_error :
  fst (lambda_handler (engine_says []) (event_without_key (lit "b"))
         sample_world) = Raise (KeyError (KStr (lit "object"))).
Proof. reflexivity. Qed.

(** The sample output passes the bracket test, and its transcript is the
    text between the tokens. *)
Example sample_output_brackets :
  brackets_begin_tokens (lit " hello [BLANK_AUDIO] world [BLANK_AUDIO] ").
Proof. apply brackets_checked_sound. reflexivity. Qed.

Example sample_output_transcript :
  fst (process_audio
         (engine_says (blit " hello [BLANK_AUDIO] world [BLANK_AUDIO] "))
         (lit "/tmp/my audio.wav") (lit "tiny") sample_world)
  = Ok (lit "hello  world").
Proof. reflexivity. Qed.

(** Silence: tokens on lines of their own give the empty transcript. *)
Example silence_is_blank_only :
  blank_only ([LF] ++ lit " " ++ BLANK_AUDIO ++ [LF] ++ BLANK_AUDIO ++ [LF]).
Proof.
  apply blank_space; [reflexivity|]. apply blank_space; [reflexivity|].
  apply blank_token. apply blank_space; [reflexivity|].
  apply blank_token. apply blank_space; [reflexivity|]. apply blank_nil.
Qed.

Example silence_transcript :
  fst (process_audio
         (engine_says ([x0a] ++ blit " [BLANK_AUDIO]" ++ [x0a]
                       ++ blit "[BLANK_AUDIO]" ++ [x0a]))
         (lit "/tmp/my audio.wav") (lit "tiny") sample_world)
  = Ok [].
Proof. reflexivity. Qed.

(** A value on the way that is not a dictionary is another matter than a
    missing key: the subscript itself is refused. *)
Example null_bucket_type_error :
  fst (lambda_handler (engine_says [])
         (VDict {[ lit "Records" :=
            VList [VDict {[ lit "s3" :=
              VDict {[ lit "bucket" := VNone;
                       lit "object" :=
                         VDict {[ lit "key" := VStr (lit "k") ]} ]} ]}] ]})
         sample_world) = Raise TypeError.
Proof. reflexivity. Qed.

(** ** Further properties of the clean-up *)

Section CleanFacts.

Implicit Types s p sub : str.

Lemma strip_sublist s : strip s `sublist_of` s.
Proof.
  destruct (strip_split s) as (a & b & Hs & _).
  rewrite Hs at 2. apply sublist_inserts_l, sublist_inserts_r. reflexivity.
Qed.

(** With the empty replacement the scan only deletes. *)
Lemma replace_scan_sublist o old' s :
  replace_scan o old' [] s `sublist_of` s.
Proof.
  remember (length s) as n eqn:Hn. revert s Hn.
  induction n as [n IH] using lt_wf_ind. intros [|c s] Hn.
  - simp replace_scan. reflexivity.
  - rewrite replace_scan_cons.
    destruct (startswith (o :: old') (c :: s)).
    + cbn [app]. apply sublist_cons.
      etrans; [|apply (sublist_drop s (length old'))].
      apply (IH (length (drop (length old') s)));
        [rewrite length_drop; simpl in Hn; lia | reflexivity].
    + apply sublist_skip. apply (IH (length s)); [simpl in Hn; lia | done].
Qed.

Lemma startswith_prefix p s :
  startswith p s = true -> exists rest, s = p ++ rest.
Proof.
  revert s. induction p as [|a p IH]; intros s Hs.
  - by exists s.
  - destruct s as [|b s]; [discriminate|]. cbn [startswith] in Hs.
    apply andb_prop in Hs as [Hab Hs]. apply N.eqb_eq in Hab as ->.
    destruct (IH s Hs) as [rest ->]. by exists rest.
Qed.

(** Text in which the pattern does not occur is left as it is. *)
Lemma replace_scan_absent o old' new s :
  ~ occurs (o :: old') s -> replace_scan o old' new s = s.
Proof.
  induction s as [|c s IH]; intros Hs.
  - by simp replace_scan.
  - rewrite replace_scan_cons.
    destruct (startswith (o :: old') (c :: s)) eqn:Hsw.
    + destruct (startswith_prefix _ _ Hsw) as [rest Hrest].
      destruct Hs. by exists [], rest.
    + f_equal. apply IH. intros (pre & post & ->).
      apply Hs. by exists (c :: pre), post.
Qed.

Lemma occurs_strip sub s : occurs sub (strip s) -> occurs sub s.
Proof.
  intros (pre & post & Hsub).
  destruct (strip_split s) as (a & b & Hs & _).
  exists (a ++ pre), (post ++ b). rewrite Hs, Hsub.
  by rewrite <- !app_assoc.
Qed.

Lemma lstrip_fixed s :
  (forall c, head s = Some c -> isspace c = false) -> lstrip s = s.
Proof.
  destruct s as [|c s]; [done|]. intros H. cbn [lstrip].
  by rewrite (H c eq_refl).
Qed.

(** Trimmed text is a fixed point of [strip]. *)
Lemma strip_fixed s : trimmed s -> strip s = s.
Proof.
  intros [Hh Hl]. unfold strip, rstrip. rewrite (lstrip_fixed s Hh).
  rewrite lstrip_fixed; [apply reverse_involutive|].
  intros c. rewrite head_reverse. apply Hl.
Qed.

Lemma strip_idempotent s : strip (strip s) = strip s.
Proof. apply strip_fixed, strip_trimmed. Qed.

End CleanFacts.

(** ** Further properties of [process_audio] *)

Section RunFacts.

Variable engine : popen_call -> gmap str bytes -> completed.

(** X1.  On a successful run the transcript is made of characters of the
    decoded output in their order: cleaning deletes, it never adds or
    reorders. *)
Theorem transcript_subsequence wav_file model_name w s :
  is_Some (files w !! model_path model_name) ->
  is_Some (files w !! wav_file) ->
  returncode (engine (child_call w wav_file model_name) (files w)) = 0%Z ->
  utf8_decode (output (engine (child_call w wav_file model_name) (files w)))
    = Some s ->
  exists r,
    fst (process_audio engine wav_file model_name w) = Ok r
    /\ r `sublist_of` s.
Proof.
  intros Hm Hw Hcode Hout.
  rewrite (process_audio_ready engine _ _ _ Hm Hw). cbn [fst].
  unfold conclude, decode_output. rewrite Hcode, Hout. cbn [Z.eqb negb].
  eexists. split; [reflexivity|].
  etrans; [apply strip_sublist|]. etrans; [|apply (strip_sublist s)].
  apply (replace_scan_sublist LBRACKET (lit "BLANK_AUDIO]")).
Qed.

(** X2.  Output in which the token does not occur is returned trimmed and
    otherwise unchanged. *)
Theorem transcript_without_token wav_file model_name w s :
  is_Some (files w !! model_path model_name) ->
  is_Some (files w !! wav_file) ->
  returncode (engine (child_call w wav_file model_name) (files w)) = 0%Z ->
  utf8_decode (output (engine (child_call w wav_file model_name) (files w)))
    = Some s ->
  ~ occurs BLANK_AUDIO s ->
  fst (process_audio engine wav_file model_name w) = Ok (strip s).
Proof.
  intros Hm Hw Hcode Hout Hs.
  rewrite (process_audio_ready engine _ _ _ Hm Hw). cbn [fst].
  unfold conclude, decode_output. rewrite Hcode, Hout. cbn [Z.eqb negb].
  f_equal.
  change (replace BLANK_AUDIO [] (strip s)) with
    (replace_scan LBRACKET (lit "BLANK_AUDIO]") [] (strip s)).
  rewrite replace_scan_absent; [apply strip_idempotent|].
  intros Hocc. by apply Hs, occurs_strip.
Qed.

(** X3.  A child that exits with status 0 and whose output is not UTF-8
    makes [process_audio] fail with the decoder's error; the child has run
    by then. *)
Theorem undecodable_output_error wav_file model_name w :
  is_Some (files w !! model_path model_name) ->
  is_Some (files w !! wav_file) ->
  returncode (engine (child_call w wav_file model_name) (files w)) = 0%Z ->
  utf8_decode (output (engine (child_call w wav_file model_name) (files w)))
    = None ->
  fst (process_audio engine wav_file model_name w) = Raise UnicodeDecodeError
  /\ started (snd (process_audio engine wav_file model_name w))
     = started w ++ [child_call w wav_file model_name].
Proof.
  intros Hm Hw Hcode Hout.
  rewrite (process_audio_ready engine _ _ _ Hm Hw). cbn [fst snd].
  unfold conclude, decode_output. by rewrite Hcode, Hout.
Qed.

(** X5.  When [LD_LIBRARY_PATH] is unset or empty in the process
    environment, the child's [LD_LIBRARY_PATH] is the [bin] directory
    alone, with no colon after it, and the rest of the child's environment
    is the process environment. *)
Theorem library_path_without_prior wav_file model_name w :
  is_Some (files w !! model_path model_name) ->
  is_Some (files w !! wav_file) ->
  environ w !! LD_LIBRARY_PATH = None
  \/ environ w !! LD_LIBRARY_PATH = Some [] ->
  exists call,
    started (snd (process_audio engine wav_file model_name w))
      = started w ++ [call]
    /\ popen_env call =
       <[LD_LIBRARY_PATH :=
           os_path_join (default (lit ".") (environ w !! LAMBDA_TASK_ROOT))
             [lit "bin"]]> (environ w).
Proof.
  intros Hm Hw Hld. rewrite (process_audio_ready engine _ _ _ Hm Hw).
  eexists. split; [reflexivity|].
  cbn [child_call popen_env]. unfold child_env, bin_path, task_root.
  unfold str in *. destruct Hld as [H|H]; by rewrite H.
Qed.

(** The directory part [os.path.join] puts before [bin]. *)
Lemma join_bin root :
  os_path_join root [lit "bin"] =
  (if bool_decide (root = []) || endswith_slash root
   then root else root ++ [SLASH]) ++ lit "bin".
Proof.
  cbn [os_path_join]. change (startswith [SLASH] (lit "bin")) with false.
  cbv iota. destruct (bool_decide (root = []) || endswith_slash root);
    [reflexivity|]. by rewrite <- app_assoc.
Qed.

Lemma endswith_slash_bin (x : str) : endswith_slash (x ++ lit "bin") = false.
Proof.
  unfold endswith_slash. change (lit "bin") with (lit "bi" ++ [110%N]).
  by rewrite app_assoc, last_snoc.
Qed.

Lemma join_bin_cli root :
  os_path_join root [lit "bin"; lit "whisper-cli"] =
  (if bool_decide (root = []) || endswith_slash root
   then root else root ++ [SLASH]) ++ lit "bin/whisper-cli".
Proof.
  change (os_path_join root [lit "bin"; lit "whisper-cli"]) with
    (os_path_join (os_path_join root [lit "bin"]) [lit "whisper-cli"]).
  rewrite join_bin.
  generalize (if bool_decide (root = []) || endswith_slash root
              then root else root ++ [SLASH]).
  intros pre. cbn [os_path_join].
  change (startswith [SLASH] (lit "whisper-cli")) with false. cbv iota.
  rewrite bool_decide_eq_false_2 by (by intros [_ [=]]%app_eq_nil).
  rewrite endswith_slash_bin. cbn [orb]. by rewrite <- app_assoc.
Qed.

(** X6.  With [LAMBDA_TASK_ROOT] set to [root], the executable is
    [root/bin/whisper-cli] and the library directory [root/bin], where no
    slash is added after an empty [root] (the paths are then relative to
    the working directory) or after a [root] that ends with one. *)
Theorem task_root_resolution wav_file model_name w root :
  environ w !! LAMBDA_TASK_ROOT = Some root ->
  is_Some (files w !! model_path model_name) ->
  is_Some (files w !! wav_file) ->
  let dir := if bool_decide (root = []) || endswith_slash root
             then root else root ++ lit "/" in
  exists call rest,
    started (snd (process_audio engine wav_file model_name w))
      = started w ++ [call]
    /\ popen_args_of call =
       ArgsStr (dir ++ lit "bin/whisper-cli" ++ lit " -m "
                ++ lit "models/ggml-" ++ model_name ++ lit ".bin"
                ++ lit " -f " ++ wav_file ++ lit " -nt")
    /\ popen_env call !! LD_LIBRARY_PATH = Some (dir ++ lit "bin" ++ rest)
    /\ (rest = [] \/ exists c v, environ w !! LD_LIBRARY_PATH = Some (c :: v)
                                 /\ rest = lit ":" ++ c :: v).
Proof.
  intros Hroot Hm Hw dir. rewrite (process_audio_ready engine _ _ _ Hm Hw).
  cbn [snd]. unfold after_launch. cbn [started].
  exists (child_call w wav_file model_name),
    (match environ w !! LD_LIBRARY_PATH with
     | Some (c :: v) => lit ":" ++ c :: v
     | _ => []
     end).
  split; [reflexivity|]. cbn [child_call popen_args_of popen_env].
  unfold full_command, whisper_cli, child_env, bin_path, task_root, model_path.
  destruct (environ w !! LD_LIBRARY_PATH) as [[|c v]|] eqn:Hld;
    unfold str in *; rewrite Hroot, ?Hld; cbn [default from_option id];
    rewrite join_bin_cli, join_bin, lookup_insert_eq;
    change (root ++ [SLASH]) with (root ++ lit "/"); fold dir;
    rewrite <- ?app_assoc, ?app_nil_r;
    (split; [reflexivity|]); (split; [reflexivity|]); eauto.
Qed.

End RunFacts.

(** X4.  The exit status selects the one stream that is read: two children
    that both exit with status 0 and print the same output give the same
    outcome whatever they wrote to the error stream, and two that exit with
    the same status other than 0 and the same error stream give the same
    outcome whatever they printed. *)
Theorem exit_status_selects_stream engine1 engine2 wav_file model_name w :
  let p1 := engine1 (child_call w wav_file model_name) (files w) in
  let p2 := engine2 (child_call w wav_file model_name) (files w) in
  returncode p1 = returncode p2 ->
  (if (returncode p1 =? 0)%Z then output p1 = output p2
   else error p1 = error p2) ->
  fst (process_audio engine1 wav_file model_name w)
  = fst (process_audio engine2 wav_file model_name w).
Proof.
  intros p1 p2 Hcode Hstream. rewrite !process_audio_run.
  destruct (negb (bool_decide (is_Some (files w !! model_path model_name))));
    [reflexivity|].
  destruct (negb (bool_decide (is_Some (files w !! wav_file))));
    [reflexivity|].
  cbn [fst]. unfold conclude. fold p1 p2. rewrite <- Hcode.
  destruct (returncode p1 =? 0)%Z; cbn [negb]; by rewrite Hstream.
Qed.

(** ** Further properties of the handler *)

Section HandlerFacts.

Variable engine : popen_call -> gmap str bytes -> completed.

(** The handler past the two subscripts, for an event naming [b] and [k]. *)
Lemma lambda_handler_run event w b k :
  event_field event (lit "bucket") (lit "name") = Ok (VStr b) ->
  event_field event (lit "object") (lit "key") = Ok (VStr k) ->
  lambda_handler engine event w =
  match s3_objects w !! b with
  | None => (Raise (download_refusal k), both_printed w event b k)
  | Some objs =>
    match objs !! k with
    | None => (Raise (download_refusal k), both_printed w event b k)
    | Some data =>
      match process_audio engine (lit "/tmp/audio.wav") (lit "tiny")
              (staged w event b k data) with
      | (Ok transcript, w2) =>
        (Ok complete,
         published w2 b (lit "processed/" ++ k ++ lit ".json") objs
           (json_dumps_str transcript))
      | (Raise e, w2) => (Raise e, w2)
      end
    end
  end.
Proof.
  intros Hb Hk. unfold lambda_handler, bind, print, lift.
  rewrite Hb, Hk. unfold s3_download_file.
  cbn [s3_objects files environ dicts stdout started].
  destruct (s3_objects w !! b) as [objs|] eqn:Hobjs; [|reflexivity].
  destruct (objs !! k) as [data|]; [|reflexivity].
  unfold os_path_exists. cbn [s3_objects files environ dicts stdout started].
  rewrite lookup_insert_eq.
  rewrite bool_decide_eq_true_2 by by eexists. cbn [negb].
  fold (staged w event b k data). unfold default_model_name.
  pose proof (process_audio_frame engine (lit "/tmp/audio.wav") (lit "tiny")
                (staged w event b k data)) as (Hs3 & _).
  destruct (process_audio engine (lit "/tmp/audio.wav") (lit "tiny")
              (staged w event b k data)) as [[transcript|e] w2];
    [|reflexivity].
  cbn [snd] in Hs3. unfold s3_put_object, ret, published, complete.
  rewrite Hs3. cbn [staged s3_objects]. by rewrite Hobjs.
Qed.

(** Either the handler fails before anything is staged, with the store,
    the files, the environment and the started processes as they were, or
    the event names an object that is there and the run goes on from the
    staged state. *)
Lemma lambda_handler_shape event w :
  (exists e w',
     lambda_handler engine event w = (Raise e, w')
     /\ s3_objects w' = s3_objects w /\ files w' = files w
     /\ environ w' = environ w /\ started w' = started w)
  \/ (exists b k objs data,
        event_field event (lit "bucket") (lit "name") = Ok (VStr b)
        /\ event_field event (lit "object") (lit "key") = Ok (VStr k)
        /\ s3_objects w !! b = Some objs
        /\ objs !! k = Some data).
Proof.
  destruct (event_field event (lit "bucket") (lit "name")) as [vb|e] eqn:Hb.
  2:{ left. eexists _, _.
      split; [apply lambda_handler_lookup_raises; by left | by cbn]. }
  destruct (event_field event (lit "object") (lit "key")) as [vk|e] eqn:Hk.
  2:{ left. eexists _, _.
      split; [apply lambda_handler_lookup_raises; right; eauto | by cbn]. }
  destruct vb as [| | | |b| |]; destruct vk as [| | | |k| |];
    try (left; unfold lambda_handler, bind, print, lift; rewrite Hb, Hk;
         eexists _, _; split; [reflexivity | by cbn]).
  rewrite (lambda_handler_run event w b k Hb Hk).
  destruct (s3_objects w !! b) as [objs|] eqn:Hobjs; [|left; by eexists _, _].
  destruct (objs !! k) as [data|] eqn:Hdata; [|left; by eexists _, _].
  right. by exists b, k, objs, data.
Qed.

(** The result key is never the key of the audio object. *)
Lemma result_key_differs (k : str) : lit "processed/" ++ k ++ lit ".json" <> k.
Proof.
  intros Heq. apply (f_equal length) in Heq.
  rewrite !length_app in Heq. cbn in Heq. lia.
Qed.

(** The outcome of [process_audio] depends on the state through the files
    and the environment only. *)
Lemma process_audio_same_inputs wav_file model_name w1 w2 :
  files w1 = files w2 -> environ w1 = environ w2 ->
  fst (process_audio engine wav_file model_name w1)
  = fst (process_audio engine wav_file model_name w2).
Proof.
  intros Hf He. rewrite !process_audio_run, Hf.
  assert (child_call w1 wav_file model_name = child_call w2 wav_file model_name)
    as ->.
  { unfold child_call, full_command, whisper_cli, child_env, bin_path,
      task_root. by rewrite He. }
  by repeat destruct (negb _).
Qed.

Lemma process_audio_frame_eq wav_file model_name w r w' :
  process_audio engine wav_file model_name w = (r, w') ->
  s3_objects w' = s3_objects w /\ files w' = files w
  /\ environ w' = environ w.
Proof.
  intros Hrun.
  destruct (process_audio_frame engine wav_file model_name w)
    as (Hs3 & Hfiles & Henv & _).
  rewrite Hrun in Hs3, Hfiles, Henv. by cbn in *.
Qed.

Lemma process_audio_same_result wav_file model_name w1 w2 r1 r2 w1' w2' :
  process_audio engine wav_file model_name w1 = (r1, w1') ->
  process_audio engine wav_file model_name w2 = (r2, w2') ->
  files w1 = files w2 -> environ w1 = environ w2 ->
  r1 = r2.
Proof.
  intros H1 H2 Hf He.
  pose proof (process_audio_same_inputs wav_file model_name w1 w2 Hf He) as H.
  by rewrite H1, H2 in H.
Qed.

(** X8.  A handler run that fails has published nothing: the object store
    is what it was before the call, whatever the event and wherever the
    failure came from. *)
Theorem handler_failure_publishes_nothing event w e w' :
  lambda_handler engine event w = (Raise e, w') ->
  s3_objects w' = s3_objects w.
Proof.
  destruct (lambda_handler_shape event w)
    as [(e0 & w0 & -> & Hs3 & _)|(b & k & objs & data & Hb & Hk & Ho & Hd)].
  - by intros [= _ <-].
  - rewrite (lambda_handler_run event w b k Hb Hk), Ho, Hd.
    destruct (process_audio_frame engine (lit "/tmp/audio.wav") (lit "tiny")
                (staged w event b k data)) as (Hs3 & _).
    destruct (process_audio engine (lit "/tmp/audio.wav") (lit "tiny")
                (staged w event b k data)) as [[t|e1] w2]; [discriminate|].
    by intros [= _ <-].
Qed.



(** X11.  Running the handler again on the same event, in the state the
    first successful run has left, succeeds with the same answer and
    leaves the object store as the first run left it. *)
Theorem handler_idempotent event w resp w1 :
  lambda_handler engine event w = (Ok resp, w1) ->
  exists w2,
    lambda_handler engine event w1 = (Ok resp, w2)
    /\ s3_objects w2 = s3_objects w1.
Proof.
  destruct (lambda_handler_shape event w)
    as [(e0 & w0 & -> & _)|(b & k & objs & data & Hb & Hk & Ho & Hd)];
    [discriminate|].
  pose proof (result_key_differs k) as Hne.
  rewrite !(lambda_handler_run event _ b k Hb Hk), Ho, Hd.
  revert Hne. generalize (lit "processed/" ++ k ++ lit ".json").
  intros rk Hne.
  destruct (process_audio engine (lit "/tmp/audio.wav") (lit "tiny")
              (staged w event b k data)) as [[t|e1] wa] eqn:Hrun1;
    [|discriminate].
  intros [= <- <-].
  assert (s3_objects (published wa b rk objs (json_dumps_str t)) !! b
          = Some (<[rk := utf8_encode (json_dumps_str t)]> objs)) as ->
    by apply lookup_insert_eq.
  rewrite lookup_insert_ne by exact Hne. rewrite Hd.
  destruct (process_audio engine (lit "/tmp/audio.wav") (lit "tiny")
              (staged (published wa b rk objs (json_dumps_str t))
                 event b k data)) as [r wb] eqn:Hrun2.
  assert (Ok t = r) as <-.
  { apply (process_audio_same_result _ _ _ _ _ _ _ _ Hrun1 Hrun2).
    - apply process_audio_frame_eq in Hrun1 as (_ & Hfiles & _).
      unfold staged, published in *. cbn [files] in *. rewrite Hfiles.
      by rewrite insert_insert_eq.
    - apply process_audio_frame_eq in Hrun1 as (_ & _ & Henv).
      unfold staged, published in *. by cbn [environ] in *. }
  eexists. split; [reflexivity|].
  apply process_audio_frame_eq in Hrun2 as (Hs3 & _).
  unfold staged, published in *. cbn [s3_objects] in *. rewrite Hs3.
  by rewrite !insert_insert_eq.
Qed.

(** X12.  A successful run leaves the audio object in the store, with the
    bytes it had. *)
Theorem handler_keeps_source_object event w b k resp w' :
  event_field event (lit "bucket") (lit "name") = Ok (VStr b) ->
  event_field event (lit "object") (lit "key") = Ok (VStr k) ->
  lambda_handler engine event w = (Ok resp, w') ->
  exists data,
    s3_objects w !! b ≫= (.!! k) = Some data
    /\ s3_objects w' !! b ≫= (.!! k) = Some data.
Proof.
  intros Hb Hk. rewrite (lambda_handler_run event w b k Hb Hk).
  destruct (s3_objects w !! b) as [objs|]; [|discriminate].
  destruct (objs !! k) as [data|] eqn:Hd; [|discriminate].
  destruct (process_audio engine (lit "/tmp/audio.wav") (lit "tiny")
              (staged w event b k data)) as [[t|e1] w2]; [|discriminate].
  intros [= _ <-]. exists data. split; [exact Hd|].
  cbn [published s3_objects]. rewrite lookup_insert_eq. cbn.
  by rewrite lookup_insert_ne by apply result_key_differs.
Qed.

(** X13.  Whatever the event, the handler starts at most one process, and
    its command line is the executable path followed by the fixed words
    [-m models/ggml-tiny.bin -f /tmp/audio.wav -nt]: no part of the event
    reaches the shell. *)
Theorem handler_command_is_fixed event w :
  started (snd (lambda_handler engine event w)) = started w
  \/ exists call,
       started (snd (lambda_handler engine event w)) = started w ++ [call]
       /\ popen_args_of call =
          ArgsStr (os_path_join
                     (default (lit ".") (environ w !! LAMBDA_TASK_ROOT))
                     [lit "bin"; lit "whisper-cli"]
                   ++ lit " -m models/ggml-tiny.bin -f /tmp/audio.wav -nt").
Proof.
  destruct (lambda_handler_shape event w)
    as [(e0 & w0 & -> & _ & _ & _ & Hst)
       |(b & k & objs & data & Hb & Hk & Ho & Hd)]; [by left|].
  rewrite (lambda_handler_run event w b k Hb Hk), Ho, Hd.
  destruct (process_audio_frame engine (lit "/tmp/audio.wav") (lit "tiny")
              (staged w event b k data)) as (_ & _ & _ & _ & Hst).
  destruct (process_audio engine (lit "/tmp/audio.wav") (lit "tiny")
              (staged w event b k data)) as [[t|e1] w2];
    cbn [snd published started] in *;
    (destruct Hst as [Hst|Hst]; [by left|]);
    right; eexists; (split; [exact Hst|]);
    cbn [child_call popen_args_of];
    unfold full_command, whisper_cli, task_root, model_path;
    cbn [staged environ]; by rewrite <- ?app_assoc.
Qed.




End HandlerFacts.

(** ** The published body *)

Section BodyFacts.

Lemma hex_digit_ascii n : (n < 16)%N -> ascii (hex_digit n).
Proof.
  unfold ascii, hex_digit. intros Hn. destruct (n <? 10)%N; lia.
Qed.

(** Closes [Forall ascii l] for a list [l] of given characters. *)
Ltac ascii_literal :=
  repeat (apply List.Forall_cons; [reflexivity|]); apply List.Forall_nil.

Lemma u_escape_ascii n : Forall ascii (u_escape n).
Proof.
  unfold u_escape, hex4. apply Forall_app. split; [ascii_literal|].
  repeat (apply List.Forall_cons;
          [apply hex_digit_ascii, N.mod_lt; lia|]).
  apply List.Forall_nil.
Qed.

Lemma json_escape_char_ascii c : Forall ascii (json_escape_char c).
Proof.
  unfold json_escape_char.
  destruct (c =? BACKSLASH)%N; [ascii_literal|].
  destruct (c =? DQUOTE)%N; [ascii_literal|].
  destruct (c =? 8)%N; [ascii_literal|].
  destruct (c =? 12)%N; [ascii_literal|].
  destruct (c =? 10)%N; [ascii_literal|].
  destruct (c =? 13)%N; [ascii_literal|].
  destruct (c =? 9)%N; [ascii_literal|].
  destruct (in_range 32 126 c) eqn:Hc.
  - apply List.Forall_cons; [|apply List.Forall_nil].
    unfold ascii, in_range in *.
    apply andb_prop in Hc as [_ Hc]. apply N.leb_le in Hc. lia.
  - destruct (c <? 65536)%N; [apply u_escape_ascii|].
    apply Forall_app. split; apply u_escape_ascii.
Qed.

Lemma json_dumps_str_ascii s : Forall ascii (json_dumps_str s).
Proof.
  unfold json_dumps_str. apply Forall_app. split; [ascii_literal|].
  apply Forall_app. split; [|ascii_literal].
  induction s as [|c s IH]; [constructor|].
  cbn [flat_map]. apply Forall_app. split;
    [apply json_escape_char_ascii | exact IH].
Qed.

(** ASCII text is encoded one byte for one character, and decodes back. *)
Lemma utf8_ascii_roundtrip t :
  Forall ascii t ->
  utf8_decode (utf8_encode t) = Some t
  /\ Forall (fun x => (Byte.to_N x < 128)%N) (utf8_encode t).
Proof.
  induction 1 as [|c t Hc _ [IHd IHb]]; [by split|].
  unfold ascii in Hc.
  assert (utf8_encode (c :: t) = byte_of_N c :: utf8_encode t) as ->.
  { unfold utf8_encode. cbn [flat_map]. unfold utf8_encode_char.
    by rewrite (proj2 (N.ltb_lt c 128) Hc). }
  assert (Byte.to_N (byte_of_N c) = c) as Hto.
  { unfold byte_of_N. destruct (Byte.of_N c) as [x|] eqn:Hx.
    - by apply Byte.to_of_N.
    - apply Byte.of_N_None_iff in Hx. lia. }
  split.
  - cbn [utf8_decode]. rewrite Hto.
    rewrite (proj2 (N.ltb_lt c 128) Hc). by rewrite IHd.
  - constructor; [by rewrite Hto | exact IHb].
Qed.

Variable engine : popen_call -> gmap str bytes -> completed.

(** X17.  The body a successful run publishes is the JSON text of the
    string [process_audio] returned for the staged file, in ASCII: every
    byte is below 128, decoded as UTF-8 the body is that JSON text, and the
    text begins and ends with a double quote. *)
Theorem published_body_is_ascii_json event w b k resp w' :
  event_field event (lit "bucket") (lit "name") = Ok (VStr b) ->
  event_field event (lit "object") (lit "key") = Ok (VStr k) ->
  lambda_handler engine event w = (Ok resp, w') ->
  exists objs data transcript w2 body,
    s3_objects w !! b = Some objs
    /\ objs !! k = Some data
    /\ process_audio engine (lit "/tmp/audio.wav") (lit "tiny")
         (staged w event b k data) = (Ok transcript, w2)
    /\ s3_objects w' !! b ≫= (.!! (lit "processed/" ++ k ++ lit ".json"))
       = Some body
    /\ Forall (fun x => (Byte.to_N x < 128)%N) body
    /\ utf8_decode body = Some (json_dumps_str transcript)
    /\ head (json_dumps_str transcript) = Some DQUOTE
    /\ last (json_dumps_str transcript) = Some DQUOTE.
Proof.
  intros Hb Hk. rewrite (lambda_handler_run engine event w b k Hb Hk).
  destruct (s3_objects w !! b) as [objs|] eqn:Hobjs; [|discriminate].
  destruct (objs !! k) as [data|] eqn:Hdata; [|discriminate].
  destruct (process_audio engine (lit "/tmp/audio.wav") (lit "tiny")
              (staged w event b k data)) as [[t|e1] w2] eqn:Hrun;
    [|discriminate].
  intros [= _ <-].
  exists objs, data, t, w2, (utf8_encode (json_dumps_str t)).
  destruct (utf8_ascii_roundtrip _ (json_dumps_str_ascii t)) as [Hdec Hbytes].
  split; [done|]. split; [done|]. split; [exact Hrun|].
  split.
  { cbn [published s3_objects]. rewrite lookup_insert_eq. cbn.
    by rewrite lookup_insert_eq. }
  split; [exact Hbytes|]. split; [exact Hdec|]. split; [reflexivity|].
  unfold json_dumps_str. by rewrite app_assoc, last_snoc.
Qed.

End BodyFacts.

(** ** The command-line entry point *)

Section CliFacts.

Variable engine : popen_call -> gmap str bytes -> completed.

Variable print_fails : cli_line -> option exn.

(** [main] with a file argument: the model is the third entry when there
    are exactly three, [tiny] otherwise. *)
Lemma main_run prog wav_file rest w :
  main engine print_fails (prog :: wav_file :: rest) w =
  match process_audio engine wav_file
          (match rest with [m] => m | _ => lit "tiny" end) w with
  | (Ok result, w') =>
    match print_fails (Line result) with
    | None => ((Ok tt, [Line result]), w')
    | Some e => (cli_print print_fails (ErrorLine e), w')
    end
  | (Raise e, w') => (cli_print print_fails (ErrorLine e), w')
  end.
Proof.
  unfold main. cbn [length Nat.leb].
  change ((prog :: wav_file :: rest) !! 1%nat) with (Some wav_file).
  cbn [default]. by destruct rest as [|m [|x rest]].
Qed.

(** X18.  A model name is honoured only when it is the last of exactly
    three entries of [sys.argv]: with any further argument it is ignored
    and the model [tiny] is used, as when none is given. *)
Theorem main_ignores_model_with_extra_arguments prog wav_file m x rest w :
  main engine print_fails (prog :: wav_file :: m :: x :: rest) w
  = main engine print_fails [prog; wav_file] w.
Proof. by rewrite !main_run. Qed.






End CliFacts.

(** ** The further properties at concrete inputs *)

Lemma absent_without_bracket (s : str) :
  LBRACKET ∉ s -> ~ occurs BLANK_AUDIO s.
Proof.
  intros Hs Hocc. apply Hs, (occurs_elem BLANK_AUDIO); [done|].
  apply list_elem_of_here.
Qed.

Lemma transcript_subsequence_witness :
  exists r,
    fst (process_audio (engine_says (blit " hello [BLANK_AUDIO] "))
           sample_wav (lit "tiny") sample_world) = Ok r
    /\ r `sublist_of` lit " hello [BLANK_AUDIO] ".
Proof.
  apply (transcript_subsequence (engine_says (blit " hello [BLANK_AUDIO] "))
           sample_wav (lit "tiny") sample_world).
  - eexists. reflexivity.
  - eexists. reflexivity.
  - reflexivity.
  - reflexivity.
Defined.

Lemma transcript_without_token_witness :
  fst (process_audio (engine_says (blit "  hello world  "))
         sample_wav (lit "tiny") sample_world)
  = Ok (strip (lit "  hello world  ")).
Proof.
  apply (transcript_without_token (engine_says (blit "  hello world  "))
           sample_wav (lit "tiny") sample_world).
  - eexists. reflexivity.
  - eexists. reflexivity.
  - reflexivity.
  - reflexivity.
  - apply absent_without_bracket. apply (bool_decide_unpack _). vm_compute.
    exact I.
Defined.

Lemma undecodable_output_error_witness :
  fst (process_audio (engine_says [xff]) sample_wav (lit "tiny") sample_world)
    = Raise UnicodeDecodeError
  /\ started (snd (process_audio (engine_says [xff]) sample_wav (lit "tiny")
                     sample_world))
     = started sample_world ++ [child_call sample_world sample_wav (lit "tiny")].
Proof.
  apply (undecodable_output_error (engine_says [xff]) sample_wav (lit "tiny")
           sample_world).
  - eexists. reflexivity.
  - eexists. reflexivity.
  - reflexivity.
  - reflexivity.
Defined.

Lemma exit_status_selects_stream_witness :
  fst (process_audio
         (engine_const {| returncode := 0; output := blit "hi";
                          error := blit "loading model" |})
         sample_wav (lit "tiny") sample_world)
  = fst (process_audio
           (engine_const {| returncode := 0; output := blit "hi";
                            error := [xff] |})
           sample_wav (lit "tiny") sample_world).
Proof.
  apply (exit_status_selects_stream
           (engine_const {| returncode := 0; output := blit "hi";
                            error := blit "loading model" |})
           (engine_const {| returncode := 0; output := blit "hi";
                            error := [xff] |})
           sample_wav (lit "tiny") sample_world).
  - reflexivity.
  - reflexivity.
Defined.

Lemma library_path_without_prior_witness :
  exists call,
    started (snd (process_audio (engine_says []) sample_wav (lit "tiny")
                    task_world))
      = started task_world ++ [call]
    /\ popen_env call =
       <[LD_LIBRARY_PATH :=
           os_path_join
             (default (lit ".") (environ task_world !! LAMBDA_TASK_ROOT))
             [lit "bin"]]> (environ task_world).
Proof.
  apply (library_path_without_prior (engine_says []) sample_wav (lit "tiny")
           task_world).
  - eexists. reflexivity.
  - eexists. reflexivity.
  - left. reflexivity.
Defined.

Lemma task_root_resolution_witness :
  let dir := if bool_decide (lit "/var/task" = [])
                || endswith_slash (lit "/var/task")
             then lit "/var/task" else lit "/var/task" ++ lit "/" in
  exists call rest,
    started (snd (process_audio (engine_says []) sample_wav (lit "tiny")
                    task_world))
      = started task_world ++ [call]
    /\ popen_args_of call =
       ArgsStr (dir ++ lit "bin/whisper-cli" ++ lit " -m "
                ++ lit "models/ggml-" ++ lit "tiny" ++ lit ".bin"
                ++ lit " -f " ++ sample_wav ++ lit " -nt")
    /\ popen_env call !! LD_LIBRARY_PATH = Some (dir ++ lit "bin" ++ rest)
    /\ (rest = []
        \/ exists c v, environ task_world !! LD_LIBRARY_PATH = Some (c :: v)
                       /\ rest = lit ":" ++ c :: v).
Proof.
  apply (task_root_resolution (engine_says []) sample_wav (lit "tiny")
           task_world (lit "/var/task")).
  - reflexivity.
  - eexists. reflexivity.
  - eexists. reflexivity.
Defined.

(** Under the task root of the sample the command is absolute. *)
Example task_world_command :
  popen_args_of <$> started (snd (process_audio (engine_says []) sample_wav
                                    (lit "tiny") task_world))
  = [ArgsStr (lit "/var/task/bin/whisper-cli -m models/ggml-tiny.bin -f /tmp/my audio.wav -nt")].
Proof. vm_compute. reflexivity. Qed.

Lemma handler_failure_publishes_nothing_witness :
  s3_objects (event_printed sample_world (event_without_key (lit "b")))
  = s3_objects sample_world.
Proof.
  apply (handler_failure_publishes_nothing (engine_says [])
           (event_without_key (lit "b")) sample_world
           (KeyError (KStr (lit "object")))).
  reflexivity.
Defined.


(** The two refusals of the sample store: an absent object, an empty key. *)
Example absent_key_client_error :
  fst (lambda_handler (engine_says [])
         (sample_event (lit "b") (lit "audio/other.wav")) sample_world)
  = Raise (ClientError (lit "404")).
Proof. reflexivity. Qed.

Example empty_key_refused :
  fst (lambda_handler (engine_says []) (sample_event (lit "b") [])
         sample_world)
  = Raise ParamValidationError.
Proof. reflexivity. Qed.


Lemma handler_idempotent_witness :
  exists w2,
    lambda_handler (engine_says (blit " hello [BLANK_AUDIO] ")) sample_trigger
      (snd (lambda_handler (engine_says (blit " hello [BLANK_AUDIO] "))
              sample_trigger sample_world))
      = (Ok complete, w2)
    /\ s3_objects w2 =
       s3_objects (snd (lambda_handler
                          (engine_says (blit " hello [BLANK_AUDIO] "))
                          sample_trigger sample_world)).
Proof.
  apply (handler_idempotent (engine_says (blit " hello [BLANK_AUDIO] "))
           sample_trigger sample_world).
  vm_compute. reflexivity.
Defined.

Lemma handler_keeps_source_object_witness :
  exists data,
    s3_objects sample_world !! lit "b" ≫= (.!! lit "audio/sample.wav")
      = Some data
    /\ s3_objects
         (snd (lambda_handler (engine_says (blit " hello [BLANK_AUDIO] "))
                 sample_trigger sample_world))
         !! lit "b" ≫= (.!! lit "audio/sample.wav") = Some data.
Proof.
  apply (handler_keeps_source_object
           (engine_says (blit " hello [BLANK_AUDIO] ")) sample_trigger
           sample_world (lit "b") (lit "audio/sample.wav") complete).
  - reflexivity.
  - reflexivity.
  - vm_compute. reflexivity.
Defined.




Lemma published_body_is_ascii_json_witness :
  exists objs data transcript w2 body,
    s3_objects sample_world !! lit "b" = Some objs
    /\ objs !! lit "audio/sample.wav" = Some data
    /\ process_audio (engine_says (blit " hello [BLANK_AUDIO] "))
         (lit "/tmp/audio.wav") (lit "tiny")
         (staged sample_world sample_trigger (lit "b")
            (lit "audio/sample.wav") data) = (Ok transcript, w2)
    /\ s3_objects
         (snd (lambda_handler (engine_says (blit " hello [BLANK_AUDIO] "))
                 sample_trigger sample_world))
         !! lit "b"
         ≫= (.!! (lit "processed/" ++ lit "audio/sample.wav" ++ lit ".json"))
       = Some body
    /\ Forall (fun x => (Byte.to_N x < 128)%N) body
    /\ utf8_decode body = Some (json_dumps_str transcript)
    /\ head (json_dumps_str transcript) = Some DQUOTE
    /\ last (json_dumps_str transcript) = Some DQUOTE.
Proof.
  apply (published_body_is_ascii_json
           (engine_says (blit " hello [BLANK_AUDIO] ")) sample_trigger
           sample_world (lit "b") (lit "audio/sample.wav") complete).
  - reflexivity.
  - reflexivity.
  - vm_compute. reflexivity.
Defined.




(** On a UTF-8 standard output the sample run prints its transcript, and a
    killed child gives the line with the negative status. *)
Example main_sample_line :
  fst (main (engine_says (blit " hello [BLANK_AUDIO] ")) utf8_stdout
         [lit "whisper_processor.py"; sample_wav] sample_world)
  = (Ok tt, [Line (lit "hello")]).
Proof. vm_compute. reflexivity. Qed.

Example main_killed_child_line :
  (fun out => (fst out, line_text <$> snd out))
    (fst (main (engine_fails (-9) []) utf8_stdout
            [lit "whisper_processor.py"; sample_wav] sample_world))
  = (Ok tt,
     [Some (lit "Error: Error processing audio (exit code -9): Unknown error")]).
Proof. vm_compute. reflexivity. Qed.

(** A model name with a character the standard output cannot encode (a
    surrogate, as an undecodable byte of the command line becomes): the
    error line cannot be printed, and the encoder's exception leaves
    [main] with nothing printed. *)
Example main_unprintable_model_name :
  fst (main (engine_says []) utf8_stdout
         [lit "whisper_processor.py"; sample_wav; [0xDC80%N]] sample_world)
  = (Raise UnicodeEncodeError, []).
Proof. vm_compute. reflexivity. Qed.
